(** * geods-poi-api: the bounding-box search handler

    A shallow embedding of the search handler of [internal/refdata.go]
    ([Response], [POI], [Search], [parseBBox], [wkbPointToWKT],
    [parseCategories] and [hasCategoryMatch]) and the properties of the
    search pipeline proved about it.

    Conventions.
    - A Go [string] is a sequence of bytes: Rocq's [string].
    - A Go [[]byte] is a [list byte].
    - A [float64] is its IEEE-754 binary64 bit pattern, a [Z] in [0, 2^64).
    - A Go [(T, error)] result is a [result T]; the error is its message.
    - A Go slice that may be [nil] is a [slice]; a Go map that may be [nil]
      is an [option (gset string)].
    - Functions of the Go standard library and of go-geom are not part of
      the repository.  Their ASCII behaviour is written out; what depends
      on Unicode tables, on floating-point text and on the WKB/WKT codecs
      is a member of the class [GoLib]. *)

From Stdlib Require Import ZArith Ascii String List Lia.
From Stdlib.Strings Require Import Byte.
From Stdlib Require Import DecimalString.
From stdpp Require Import base gmap strings list.

Local Open Scope Z_scope.

(** ** Go values *)

(** [(T, error)]: either a value or the message of a non-nil error. *)
Inductive result (A : Type) : Type :=
| Ok (a : A)
| Err (msg : string).
Arguments Ok {A} a.
Arguments Err {A} msg.

Definition is_Ok {A} (r : result A) : bool :=
  match r with Ok _ => true | Err _ => false end.

(** A slice is [nil] or a sequence; [append] to [nil] allocates. *)
Inductive slice (A : Type) : Type :=
| nil_slice
| mk_slice (elems : list A).
Arguments nil_slice {A}.
Arguments mk_slice {A} elems.

Definition elems {A} (s : slice A) : list A :=
  match s with nil_slice => [] | mk_slice l => l end.

Definition append {A} (s : slice A) (x : A) : slice A :=
  mk_slice (elems s ++ [x]).

(** [map[string]struct{}]: [None] is the nil map. *)
Definition category_set : Type := option (gset string).

Definition len_map (m : category_set) : nat :=
  match m with None => 0%nat | Some s => size s end.

(** [_, exists := m[k]] *)
Definition exists_in (m : category_set) (k : string) : bool :=
  match m with None => false | Some s => bool_decide (k ∈ s) end.

Definition float64 : Type := Z.


(** ** package strings, ASCII paths *)

Definition byte_of (c : ascii) : Z := Z.of_N (N_of_ascii c).

(** [utf8.RuneSelf]: bytes below it are single-byte runes. *)
Definition RuneSelf : Z := 128.

(** [strings.asciiSpace] *)
Definition asciiSpace (c : ascii) : bool :=
  let b := byte_of c in
  (b =? 9) || (b =? 10) || (b =? 11) || (b =? 12) || (b =? 13) || (b =? 32).

Definition is_upper (c : ascii) : bool :=
  (65 <=? byte_of c) && (byte_of c <=? 90).

(** [c += 'a' - 'A'] for ['A' <= c <= 'Z'] *)
Definition lower_byte (c : ascii) : ascii :=
  if is_upper c then ascii_of_N (N_of_ascii c + 32) else c.

Fixpoint isASCII (s : string) : bool :=
  match s with
  | EmptyString => true
  | String c r => (byte_of c <? RuneSelf) && isASCII r
  end.

Fixpoint map_bytes (f : ascii → ascii) (s : string) : string :=
  match s with
  | EmptyString => EmptyString
  | String c r => String (f c) (map_bytes f r)
  end.

Fixpoint rev_string (s acc : string) : string :=
  match s with
  | EmptyString => acc
  | String c r => rev_string r (String c acc)
  end.

(** [strings.Split(s, sep)] and [strings.SplitSeq(s, sep)] for a one-byte
    separator: the pieces between the occurrences of [sep], in order; one
    more piece than there are separators. *)
Fixpoint Split (s : string) (sep : ascii) : list string :=
  match s with
  | EmptyString => [EmptyString]
  | String c r =>
      if Ascii.eqb c sep then EmptyString :: Split r sep
      else match Split r sep with
           | [] => [String c EmptyString]
           | piece :: pieces => String c piece :: pieces
           end
  end.

Definition comma : ascii := ascii_of_N 44.
Definition pipe : ascii := ascii_of_N 124.

(** ** go-geom geometries

    [geom.T] is an interface; the handler only inspects the dynamic type of
    the value [wkb.Unmarshal] returns, and hands a point on to
    [wkt.Marshal].  A point carries its layout and flat coordinates; what
    the other kinds carry is never looked at. *)
Inductive Layout : Type := NoLayout | XY | XYZ | XYM | XYZM.

Inductive geom_T : Type :=
| Point (layout : Layout) (flatCoords : list float64)
| LineString
| Polygon
| MultiPoint
| MultiLineString
| MultiPolygon
| GeometryCollection.

(** What [%T] prints for the value. *)
Definition typeName (g : geom_T) : string :=
  match g with
  | Point _ _ => "*geom.Point"
  | LineString => "*geom.LineString"
  | Polygon => "*geom.Polygon"
  | MultiPoint => "*geom.MultiPoint"
  | MultiLineString => "*geom.MultiLineString"
  | MultiPolygon => "*geom.MultiPolygon"
  | GeometryCollection => "*geom.GeometryCollection"
  end.

Definition is_Point (g : geom_T) : bool :=
  match g with Point _ _ => true | _ => false end.

(** The library functions the handler calls that are not modelled byte by
    byte. *)
Class GoLib : Type := {
  (** [strings.Map(unicode.ToLower, s)]: the path of [strings.ToLower] for
      a string with a byte at or above [utf8.RuneSelf]. *)
  Map_unicode_ToLower : string → string;
  (** [strings.TrimFunc(s, unicode.IsSpace)] and
      [strings.TrimRightFunc(s, unicode.IsSpace)]: the paths of
      [strings.TrimSpace] once it meets such a byte. *)
  TrimFunc_IsSpace : string → string;
  TrimRightFunc_IsSpace : string → string;
  (** [strconv.ParseFloat(s, 64)]; [None] is a non-nil error. *)
  ParseFloat : string → option float64;
  (** [strconv.FormatFloat(x, 'f', -1, 64)] *)
  FormatFloat : float64 → string;
  (** [wkb.Unmarshal(data)] *)
  wkb_Unmarshal : list byte → result geom_T;
  (** [wkt.Marshal(g)] *)
  wkt_Marshal : geom_T → result string;
}.

(** ** The data of the handler *)

(** [sql.NullString] *)
Record NullString : Type := {
  NullString_String : string;
  Valid : bool;
}.

(** [type POI struct]; a [*string] is an [option string].  [Categories] is
    only ever read through [len], [range] and [omitempty], which do not
    tell a nil slice from an empty one: it is a plain list. *)
Record POI : Type := {
  Fid : Z;
  Geom : string;
  Id : string;
  PrimaryName : option string;
  Categories : list string;
  Address : option string;
  Locality : option string;
  Postcode : option string;
  Region : option string;
  Country : option string;
  Source : string;
  SourceRecordId : string;
  Lat : float64;
  Long : float64;
  H3_15 : string;
  Easting : float64;
  Northing : float64;
  LSOA21CD : string;
}.

(** [var poi POI] *)
Definition zero_POI : POI := {|
  Fid := 0; Geom := ""; Id := ""; PrimaryName := None; Categories := [];
  Address := None; Locality := None; Postcode := None; Region := None;
  Country := None; Source := ""; SourceRecordId := ""; Lat := 0; Long := 0;
  H3_15 := ""; Easting := 0; Northing := 0; LSOA21CD := "";
|}.

(** [type Response struct] *)
Record Response : Type := {
  Results : slice POI;
}.

(** [const ( LEFT = iota; BOTTOM; RIGHT; TOP )] *)
Definition LEFT : nat := 0.
Definition BOTTOM : nat := 1.
Definition RIGHT : nat := 2.
Definition TOP : nat := 3.

(** ** The row source

    One row of the [SELECT] of [Search], as a successful [rows.Scan]
    delivers its nineteen columns. *)
Record Row : Type := {
  col_fid : Z;
  col_geom : list byte;
  col_id : string;
  col_primary_name : option string;
  col_main_category : NullString;
  col_alternate_category : NullString;
  col_address : option string;
  col_locality : option string;
  col_postcode : option string;
  col_region : option string;
  col_country : option string;
  col_source : string;
  col_source_record_id : string;
  col_lat : float64;
  col_long : float64;
  col_h3_15 : string;
  col_easting : float64;
  col_northing : float64;
  col_lsoa21cd : string;
}.

(** [*sql.Rows]: what each [rows.Next(); rows.Scan(...)] gives, in order,
    then what [rows.Err()] and [rows.Close()] return. *)
Record Rows : Type := {
  rows_Scan : list (result Row);
  rows_Err : option string;
  rows_Close : option string;
}.

(** [*sql.DB], as far as [Search] uses it: the one query, with the values
    bound to its four placeholders in order. *)
Record DB : Type := {
  db_Query : float64 → float64 → float64 → float64 → result Rows;
}.

(** ** The reply *)

(** What the handler passes to [c.JSON]. *)
Inductive Body : Type :=
| gin_H_error (msg : string)
| body_Response (r : Response).

Record Reply : Type := {
  status : Z;
  body : Body;
}.

Definition StatusOK : Z := 200.
Definition StatusBadRequest : Z := 400.
Definition StatusInternalServerError : Z := 500.

(** encoding/json values. *)
#[warnings="-register-all"]
Inductive JSON : Type :=
| JNull
| JString (s : string)
| JInt (n : Z)
| JFloat (x : float64)
| JArray (items : list JSON)
| JObject (members : list (string * JSON)).

(** A pointer field tagged [omitempty]. *)
Definition omitempty_ptr (key : string) (v : option string) : list (string * JSON) :=
  match v with None => [] | Some s => [(key, JString s)] end.

(** A slice field tagged [omitempty]. *)
Definition omitempty_strings (key : string) (v : list string) : list (string * JSON) :=
  match v with [] => [] | _ => [(key, JArray (map JString v))] end.

(** The struct tags of [POI]. *)
Definition json_POI (p : POI) : JSON :=
  JObject (
    [("fid", JInt (Fid p)); ("geom", JString (Geom p)); ("id", JString (Id p))]
    ++ omitempty_ptr "primary_name" (PrimaryName p)
    ++ omitempty_strings "categories" (Categories p)
    ++ omitempty_ptr "address" (Address p)
    ++ omitempty_ptr "locality" (Locality p)
    ++ omitempty_ptr "postcode" (Postcode p)
    ++ omitempty_ptr "region" (Region p)
    ++ omitempty_ptr "country" (Country p)
    ++ [("source", JString (Source p));
        ("source_record_id", JString (SourceRecordId p));
        ("lat", JFloat (Lat p)); ("long", JFloat (Long p));
        ("h3_15", JString (H3_15 p));
        ("easting", JFloat (Easting p)); ("northing", JFloat (Northing p));
        ("lsoa21cd", JString (LSOA21CD p))]).

(** A slice encodes as an array, the nil slice as [null]. *)
Definition json_slice {A} (f : A → JSON) (s : slice A) : JSON :=
  match s with
  | nil_slice => JNull
  | mk_slice l => JArray (map f l)
  end.

(** The struct tag of [Response]. *)
Definition json_Response (r : Response) : JSON :=
  JObject [("results", json_slice json_POI (Results r))].

Definition json_Body (b : Body) : JSON :=
  match b with
  | gin_H_error msg => JObject [("error", JString msg)]
  | body_Response r => json_Response r
  end.

(** ** The handler *)

Section Handler.
Context {lib : GoLib}.

(** [strings.TrimSpace], second loop: the bytes of [s[start:stop]] from the
    end ([rs] holds them last byte first). *)
Fixpoint TrimSpace_stop (rs : string) : string :=
  match rs with
  | EmptyString => EmptyString
  | String c r =>
      if RuneSelf <=? byte_of c then TrimRightFunc_IsSpace (rev_string rs "")
      else if asciiSpace c then TrimSpace_stop r
      else rev_string rs ""
  end.

(** [strings.TrimSpace], first loop: the bytes of [s] from the start. *)
Fixpoint TrimSpace (s : string) : string :=
  match s with
  | EmptyString => EmptyString
  | String c r =>
      if RuneSelf <=? byte_of c then TrimFunc_IsSpace s
      else if asciiSpace c then TrimSpace r
      else TrimSpace_stop (rev_string s "")
  end.

(** [strings.ToLower] *)
Definition ToLower (s : string) : string :=
  if isASCII s then map_bytes lower_byte s else Map_unicode_ToLower s.

(** [func parseBBox], the loop [for i, part := range bboxParts]. *)
Fixpoint parseBBox_loop (i : nat) (bboxParts : list string) (bbox : list float64)
  : result (list float64) :=
  match bboxParts with
  | [] => Ok bbox
  | part :: rest =>
      match ParseFloat (TrimSpace part) with
      | None => Err ("invalid bbox value '" +:+ part +:+ "': not a valid float")
      | Some val => parseBBox_loop (S i) rest (<[i := val]> bbox)
      end
  end.

(** [func parseBBox] *)
Definition parseBBox (bboxStr : string) : result (list float64) :=
  let bboxParts := Split bboxStr comma in
  if negb (length bboxParts =? 4)%nat then
    Err "bbox must have 4 comma-separated values"
  else
    let bbox := replicate 4 0 in
    parseBBox_loop 0 bboxParts bbox.

(** [func wkbPointToWKT] *)
Definition wkbPointToWKT (geomBytes : list byte) : result string :=
  if (length geomBytes <? 8)%nat then
    Err "input byte slice is too short to contain a GeoPackage header and WKB data"
  else
    let wkbData := drop 8 geomBytes in
    match wkb_Unmarshal wkbData with
    | Err e => Err ("error unmarshaling WKB: " +:+ e)
    | Ok g =>
        if negb (is_Point g) then
          Err ("decoded geometry is not a Point, but a " +:+ typeName g)
        else
          match wkt_Marshal g with
          | Err e => Err ("error marshaling to WKT: " +:+ e)
          | Ok wktString => Ok wktString
          end
    end.

(** [func parseCategories], the loop over [strings.SplitSeq]. *)
Fixpoint parseCategories_loop (cats : list string) (categories : gset string)
  : result category_set :=
  match cats with
  | [] => Ok (Some categories)
  | cat :: rest =>
      let cat := TrimSpace cat in
      if String.eqb cat "" then Err "category cannot be an empty string"
      else parseCategories_loop rest ({[ ToLower cat ]} ∪ categories)
  end.

(** [func parseCategories] *)
Definition parseCategories (categoriesStr : string) : result category_set :=
  if String.eqb categoriesStr "" then Ok None
  else parseCategories_loop (Split categoriesStr comma) ∅.

(** [func hasCategoryMatch] *)
Fixpoint hasCategoryMatch (items : list string) (categories : category_set) : bool :=
  match items with
  | [] => false
  | item :: rest =>
      if exists_in categories item then true
      else hasCategoryMatch rest categories
  end.

(** [rows.Scan(&poi.Fid, &geomBytes, &poi.Id, ...)] on the reused [poi]:
    sixteen fields are overwritten, [Geom] and [Categories] are not among
    the destinations. *)
Definition Scan_poi (row : Row) (poi : POI) : POI := {|
  Fid := col_fid row;
  Geom := Geom poi;
  Id := col_id row;
  PrimaryName := col_primary_name row;
  Categories := Categories poi;
  Address := col_address row;
  Locality := col_locality row;
  Postcode := col_postcode row;
  Region := col_region row;
  Country := col_country row;
  Source := col_source row;
  SourceRecordId := col_source_record_id row;
  Lat := col_lat row;
  Long := col_long row;
  H3_15 := col_h3_15 row;
  Easting := col_easting row;
  Northing := col_northing row;
  LSOA21CD := col_lsoa21cd row;
|}.

(** [poi.Geom = v] *)
Definition set_Geom (v : string) (poi : POI) : POI := {|
  Fid := Fid poi; Geom := v; Id := Id poi; PrimaryName := PrimaryName poi;
  Categories := Categories poi; Address := Address poi;
  Locality := Locality poi; Postcode := Postcode poi; Region := Region poi;
  Country := Country poi; Source := Source poi;
  SourceRecordId := SourceRecordId poi; Lat := Lat poi; Long := Long poi;
  H3_15 := H3_15 poi; Easting := Easting poi; Northing := Northing poi;
  LSOA21CD := LSOA21CD poi;
|}.

(** [poi.Categories = v] *)
Definition set_Categories (v : list string) (poi : POI) : POI := {|
  Fid := Fid poi; Geom := Geom poi; Id := Id poi; PrimaryName := PrimaryName poi;
  Categories := v; Address := Address poi;
  Locality := Locality poi; Postcode := Postcode poi; Region := Region poi;
  Country := Country poi; Source := Source poi;
  SourceRecordId := SourceRecordId poi; Lat := Lat poi; Long := Long poi;
  H3_15 := H3_15 poi; Easting := Easting poi; Northing := Northing poi;
  LSOA21CD := LSOA21CD poi;
|}.

(** Lines 215 to 223 of [Search]: the tag list of a row.
    [make([]string, 0)], the primary category when it is valid, then each
    piece of the alternate category, trimmed. *)
Definition categoryTags (mainCategory alternateCategory : NullString) : list string :=
  let cats := [] in
  let cats :=
    if Valid mainCategory then cats ++ [NullString_String mainCategory]
    else cats in
  if Valid alternateCategory then
    fold_left (λ cats cat, cats ++ [TrimSpace cat])
      (Split (NullString_String alternateCategory) pipe) cats
  else cats.

(** How the loop [for rows.Next()] of [Search] ends: a [return] after a
    logged error, or the end of the rows with the results so far. *)
Inductive loop_end : Type :=
| Returned (logged : string)
| Finished (results : slice POI).

(** The loop [for rows.Next()], on the state [results], [poi]. *)
Fixpoint Search_loop (categories : category_set) (scans : list (result Row))
    (results : slice POI) (poi : POI) : loop_end :=
  match scans with
  | [] => Finished results
  | Err e :: _ => Returned ("error scanning row: " +:+ e)
  | Ok row :: rest =>
      let geomBytes := col_geom row in
      let mainCategory := col_main_category row in
      let alternateCategory := col_alternate_category row in
      let poi := Scan_poi row poi in
      match wkbPointToWKT geomBytes with
      | Err e => Returned ("error converting WKB to WKT: " +:+ e)
      | Ok wktString =>
          let poi := set_Geom wktString poi in
          let poi := set_Categories (categoryTags mainCategory alternateCategory) poi in
          let results :=
            if (len_map categories =? 0)%nat
               || hasCategoryMatch (Categories poi) categories
            then append results poi
            else results in
          Search_loop categories rest results poi
      end
  end.

Definition internal_server_error : Reply := {|
  status := StatusInternalServerError;
  body := gin_H_error "An internal server error occurred";
|}.

Definition bad_request (msg : string) : Reply := {|
  status := StatusBadRequest;
  body := gin_H_error msg;
|}.

(** [c.JSON(http.StatusOK, Response{Results: results})] *)
Definition ok_response (results : slice POI) : Reply := {|
  status := StatusOK;
  body := body_Response {| Results := results |};
|}.

(** The deferred [rows.Close()]. *)
Definition deferred_Close (rows : Rows) : list string :=
  match rows_Close rows with
  | Some e => ["error closing rows: " +:+ e]
  | None => []
  end.

(** [func Search] from [defer] on: the loop, [rows.Err()], the reply, and
    the deferred [rows.Close()]. *)
Definition Search_rows (categories : category_set) (rows : Rows)
  : list string * Reply :=
  match Search_loop categories (rows_Scan rows) nil_slice zero_POI with
  | Returned logged => (logged :: deferred_Close rows, internal_server_error)
  | Finished results =>
      match rows_Err rows with
      | Some e =>
          (("error during rows iteration: " +:+ e) :: deferred_Close rows,
           internal_server_error)
      | None => (deferred_Close rows, ok_response results)
      end
  end.

(** [func Search]: the handler on the query parameters [bbox] and
    [categories]; the lines it logs and its reply. *)
Definition Search (db : DB) (bboxStr categoriesStr : string) : list string * Reply :=
  match parseBBox bboxStr with
  | Err e => ([], bad_request e)
  | Ok bbox =>
      match parseCategories categoriesStr with
      | Err e => ([], bad_request e)
      | Ok categories =>
          match db_Query db (bbox !!! BOTTOM) (bbox !!! TOP)
                           (bbox !!! LEFT) (bbox !!! RIGHT) with
          | Err e => (["error querying database: " +:+ e], internal_server_error)
          | Ok rows => Search_rows categories rows
          end
      end
  end.

End Handler.

(** ** The table behind the row source

    The [SELECT] of [Search] run against a table [poi_uk] held in memory:
    [WHERE lat BETWEEN ? AND ? AND long BETWEEN ? AND ?], rows in table
    order, no failure. *)

Definition f64_sign (x : float64) : bool := Z.testbit x 63.
Definition f64_magnitude (x : float64) : Z := Z.land x (2 ^ 63 - 1).
Definition f64_isNaN (x : float64) : bool := 0x7FF0000000000000 <? f64_magnitude x.

(** The order of two binary64 values that are not NaN is the order of
    their signed magnitudes; [-0] and [+0] are equal. *)
Definition f64_key (x : float64) : Z :=
  if f64_sign x then - f64_magnitude x else f64_magnitude x.

Definition f64_le (x y : float64) : bool :=
  negb (f64_isNaN x) && negb (f64_isNaN y) && (f64_key x <=? f64_key y).

(** [x BETWEEN lo AND hi] *)
Definition BETWEEN (x lo hi : float64) : bool := f64_le lo x && f64_le x hi.

(** The rows the [WHERE] clause selects, in table order. *)
Definition select (poi_uk : list Row) (p1 p2 p3 p4 : float64) : list Row :=
  List.filter (λ row, BETWEEN (col_lat row) p1 p2 && BETWEEN (col_long row) p3 p4)
    poi_uk.

(** Rows that all scan, with no iteration or close error. *)
Definition sound_rows (rs : list Row) : Rows := {|
  rows_Scan := map Ok rs;
  rows_Err := None;
  rows_Close := None;
|}.

Definition poi_uk_db (poi_uk : list Row) : DB := {|
  db_Query := λ p1 p2 p3 p4, Ok (sound_rows (select poi_uk p1 p2 p3 p4));
|}.

(** ** The point encoding *)

Inductive ByteOrder : Type := XDR | NDR.

Definition byte_of_Z (v : Z) : byte := byte_of_ascii (ascii_of_N (Z.to_N v)).
Definition Z_of_byte (b : byte) : Z := Z.of_N (Byte.to_N b).

Fixpoint le_bytes (n : nat) (v : Z) : list byte :=
  match n with
  | O => []
  | S n' => byte_of_Z (v mod 256) :: le_bytes n' (v / 256)
  end.

Fixpoint Z_of_le (bs : list byte) : Z :=
  match bs with
  | [] => 0
  | b :: r => Z_of_byte b + 256 * Z_of_le r
  end.

Definition put_uint (bo : ByteOrder) (n : nat) (v : Z) : list byte :=
  match bo with NDR => le_bytes n v | XDR => rev (le_bytes n v) end.

Definition get_uint (bo : ByteOrder) (bs : list byte) : Z :=
  match bo with NDR => Z_of_le bs | XDR => Z_of_le (rev bs) end.

Definition order_byte (bo : ByteOrder) : byte :=
  match bo with XDR => byte_of_Z 0 | NDR => byte_of_Z 1 end.

(** Modelled from the spec: the payload that follows the 8-byte header,
    "a standard binary point-geometry payload" (4.3), whose codec (go-geom's
    wkb package) is not among the sources.  It is the well-known-binary
    point: a byte-order mark, the geometry type 1 as a 32-bit integer, then
    the longitude and the latitude as binary64, longitude first. *)
Definition wkb_point (bo : ByteOrder) (lon lat : float64) : list byte :=
  order_byte bo :: put_uint bo 4 1 ++ put_uint bo 8 lon ++ put_uint bo 8 lat.

Section PointText.
Context {lib : GoLib}.

(** Modelled from the spec: the text of a decoded point, "POINT(<lon> <lat>)"
    with the longitude before the latitude (4.3, 8), whose encoder (go-geom's
    wkt package) is not among the sources. *)
Definition POINT_text (lon lat : float64) : string :=
  "POINT(" +:+ FormatFloat lon +:+ " " +:+ FormatFloat lat +:+ ")".


End PointText.

(** ** A small instance of the library

    Enough of the library to run the handler on plain requests: ASCII
    strings, integer literals, and point (and line-string) payloads.  The
    properties below hold for every instance; this one shows that their
    hypotheses can be met and evaluates the handler on concrete inputs. *)

Definition decimal (n : Z) : string :=
  NilZero.string_of_uint (N.to_uint (Z.to_N n)).

Fixpoint trim_left_ascii (s : string) : string :=
  match s with
  | EmptyString => EmptyString
  | String c r => if asciiSpace c then trim_left_ascii r else s
  end.

Definition trim_right_ascii (s : string) : string :=
  rev_string (trim_left_ascii (rev_string s "")) "".

(** Signed decimal integers below [2^53], which binary64 holds exactly. *)
Definition bits_of_nat_value (n : Z) : float64 :=
  if n =? 0 then 0
  else let e := Z.log2 n in (1023 + e) * 2 ^ 52 + (n * 2 ^ (52 - e) - 2 ^ 52).

Definition stub_ParseFloat (s : string) : option float64 :=
  let '(negative, digits) :=
    match s with
    | String c r =>
        if (byte_of c =? 45) then (true, r)
        else if (byte_of c =? 43) then (false, r)
        else (false, s)
    | EmptyString => (false, s)
    end in
  match digits with
  | EmptyString => None
  | _ =>
      match NilEmpty.uint_of_string digits with
      | None => None
      | Some u =>
          let n := Z.of_N (N.of_uint u) in
          if n <? 2 ^ 53 then
            Some (if negative then 2 ^ 63 + bits_of_nat_value n
                  else bits_of_nat_value n)
          else None
      end
  end.

Fixpoint strip_zeros (rs : string) : string :=
  match rs with
  | String c r => if (byte_of c =? 48) then strip_zeros r else rs
  | EmptyString => EmptyString
  end.

Fixpoint zeros (n : nat) : string :=
  match n with O => EmptyString | S n' => String (ascii_of_N 48) (zeros n') end.

Fixpoint take_string (n : nat) (s : string) : string :=
  match n, s with
  | S n', String c r => String c (take_string n' r)
  | _, _ => EmptyString
  end.

Fixpoint drop_string (n : nat) (s : string) : string :=
  match n, s with
  | S n', String _ r => drop_string n' r
  | _, _ => s
  end.

(** [m / 10^k] written out, without trailing zeros. *)
Definition fixed_point (m : Z) (k : nat) : string :=
  let digits := decimal m in
  let digits := zeros (S k - String.length digits) +:+ digits in
  let n := (String.length digits - k)%nat in
  let fraction := rev_string (strip_zeros (rev_string (drop_string n digits) "")) "" in
  match fraction with
  | EmptyString => take_string n digits
  | _ => take_string n digits +:+ "." +:+ fraction
  end.

(** The exact decimal expansion of a binary64 value. *)
Definition stub_FormatFloat (x : float64) : string :=
  let sign := if f64_sign x then "-" else "" in
  let e := (x / 2 ^ 52) mod 2 ^ 11 in
  let f := x mod 2 ^ 52 in
  if e =? 2047 then
    if f =? 0 then (if f64_sign x then "-Inf" else "+Inf") else "NaN"
  else
    let m := if e =? 0 then f else f + 2 ^ 52 in
    let k := if e =? 0 then -1074 else e - 1075 in
    if 0 <=? k then sign +:+ decimal (m * 2 ^ k)
    else sign +:+ fixed_point (m * 5 ^ (- k)) (Z.to_nat (- k)).

Definition order_of_byte (b : byte) : option ByteOrder :=
  if Z_of_byte b =? 0 then Some XDR
  else if Z_of_byte b =? 1 then Some NDR
  else None.

(** [n] binary64 values, if the bytes are there. *)
Fixpoint get_floats (bo : ByteOrder) (n : nat) (bs : list byte) : option (list float64) :=
  match n with
  | O => Some []
  | S n' =>
      if (length bs <? 8)%nat then None
      else match get_floats bo n' (drop 8 bs) with
           | None => None
           | Some r => Some (get_uint bo (take 8 bs) :: r)
           end
  end.

Definition stub_point (bo : ByteOrder) (layout : Layout) (stride : nat)
    (bs : list byte) : result geom_T :=
  match get_floats bo stride bs with
  | None => Err "unexpected EOF"
  | Some coords => Ok (Point layout coords)
  end.

Definition stub_wkb_Unmarshal (data : list byte) : result geom_T :=
  match data with
  | [] => Err "EOF"
  | b :: rest =>
      match order_of_byte b with
      | None => Err "wkb: invalid byte order"
      | Some bo =>
          if (length rest <? 4)%nat then Err "unexpected EOF"
          else
            let t := get_uint bo (take 4 rest) in
            let rest := drop 4 rest in
            if t =? 1 then stub_point bo XY 2 rest
            else if t =? 1001 then stub_point bo XYZ 3 rest
            else if t =? 2001 then stub_point bo XYM 3 rest
            else if t =? 3001 then stub_point bo XYZM 4 rest
            else if t =? 2 then
              if (length rest <? 4)%nat then Err "unexpected EOF"
              else
                let n := get_uint bo (take 4 rest) in
                match get_floats bo (2 * Z.to_nat n) (drop 4 rest) with
                | None => Err "unexpected EOF"
                | Some _ => Ok LineString
                end
            else Err "wkb: unsupported type"
      end
  end.

Definition stub_wkt_Marshal (g : geom_T) : result string :=
  match g with
  | Point XY [x; y] =>
      Ok ("POINT(" +:+ stub_FormatFloat x +:+ " " +:+ stub_FormatFloat y +:+ ")")
  | _ => Err "wkt: unsupported geometry"
  end.

Definition stub_lib : GoLib := {|
  Map_unicode_ToLower := map_bytes lower_byte;
  TrimFunc_IsSpace := λ s, trim_right_ascii (trim_left_ascii s);
  TrimRightFunc_IsSpace := trim_right_ascii;
  ParseFloat := stub_ParseFloat;
  FormatFloat := stub_FormatFloat;
  wkb_Unmarshal := stub_wkb_Unmarshal;
  wkt_Marshal := stub_wkt_Marshal;
|}.




(** U+2102, the double-struck capital C, in UTF-8: an upper-case letter
    (category Lu) without a lower-case form, which [strings.ToLower] and
    [strings.TrimSpace] leave as it is. *)
Definition double_struck_C : string :=
  String (ascii_of_N 226) (String (ascii_of_N 132)
    (String (ascii_of_N 130) EmptyString)).

(** The row of the end-to-end example: lat 51.5, long -0.12, primary
    category [main], alternate category Bakery, and a GeoPackage blob (the
    header GP, version 0, flags 1, srs_id 4326, then the point). *)
Definition lat_51_5 : float64 := 0x4049C00000000000.
Definition long_m0_12 : float64 := 0xBFBEB851EB851EB8.

Definition gpkg_header : list byte :=
  map byte_of_Z [71; 80; 0; 1; 230; 16; 0; 0].

Definition example_row (main : string) : Row := {|
  col_fid := 1;
  col_geom := gpkg_header ++ wkb_point NDR long_m0_12 lat_51_5;
  col_id := "poi-1";
  col_primary_name := Some "Corner Cafe";
  col_main_category := {| NullString_String := main; Valid := true |};
  col_alternate_category := {| NullString_String := "Bakery"; Valid := true |};
  col_address := None;
  col_locality := Some "London";
  col_postcode := None;
  col_region := None;
  col_country := Some "GB";
  col_source := "src";
  col_source_record_id := "rec-1";
  col_lat := lat_51_5;
  col_long := long_m0_12;
  col_h3_15 := "8f194ad32c5a6e3";
  col_easting := 0x4120000000000000;
  col_northing := 0x4106000000000000;
  col_lsoa21cd := "E01000001";
|}.


(** Three blobs that do not decode: one of five bytes, a header with a
    payload cut after its type, and a header with an empty line string. *)
Definition short_blob : list byte := map byte_of_Z [71; 80; 0; 1; 230].

Definition cut_blob : list byte :=
  gpkg_header ++ order_byte NDR :: put_uint NDR 4 1.

Definition linestring_blob : list byte :=
  gpkg_header ++ order_byte NDR :: put_uint NDR 4 2 ++ put_uint NDR 4 0.

Definition example_bbox : string := "-1,51,1,52".

Definition example_table : list Row :=
  [example_row "cafe"; example_row "Cafe"; example_row "zoo"].


(** ** The words of the specification *)

(** A string with one of the bytes [A] to [Z]. *)
Fixpoint has_upper (s : string) : bool :=
  match s with
  | EmptyString => false
  | String c r => is_upper c || has_upper r
  end.

(** An optional string, as a [sql.NullString] holds it. *)
Definition nullable (ns : NullString) : option string :=
  if Valid ns then Some (NullString_String ns) else None.

Definition some_string (s : string) : NullString :=
  {| NullString_String := s; Valid := true |}.

Definition null_string : NullString :=
  {| NullString_String := ""; Valid := false |}.

(** [results] with the elements of [l] appended one by one. *)
Definition append_all {A} (results : slice A) (l : list A) : slice A :=
  fold_left append l results.

Section Words.
Context {lib : GoLib}.

(** The tagger in the words of 4.4: the primary category first if present,
    then each alternate token, split on the pipe and trimmed. *)
Definition tagger (primary alternate : option string) : list string :=
  match primary with Some p => [p] | None => [] end
  ++ match alternate with
     | Some a => map TrimSpace (Split a pipe)
     | None => []
     end.

(** The filter compiler in the words of 4.2, on a non-empty input: the
    trimmed tokens, and the set of their lower-cased forms. *)
Definition tokens (categoriesStr : string) : list string :=
  map TrimSpace (Split categoriesStr comma).

Definition lowered_set (toks : list string) : gset string :=
  list_to_set (map ToLower toks).

(** The verdict of a compiled filter on a tag list, in the words of 4.5,
    step 5: match all, or some tag is a member of the filter set. *)
Definition passes (categories : category_set) (tags : list string) : bool :=
  match categories with
  | None => true
  | Some filter_set => existsb (λ tag, bool_decide (tag ∈ filter_set)) tags
  end.

(** The POI of a row whose geometry decoded to [wktString]. *)
Definition POI_of_row (row : Row) (wktString : string) : POI := {|
  Fid := col_fid row;
  Geom := wktString;
  Id := col_id row;
  PrimaryName := col_primary_name row;
  Categories :=
    categoryTags (col_main_category row) (col_alternate_category row);
  Address := col_address row;
  Locality := col_locality row;
  Postcode := col_postcode row;
  Region := col_region row;
  Country := col_country row;
  Source := col_source row;
  SourceRecordId := col_source_record_id row;
  Lat := col_lat row;
  Long := col_long row;
  H3_15 := col_h3_15 row;
  Easting := col_easting row;
  Northing := col_northing row;
  LSOA21CD := col_lsoa21cd row;
|}.

(** The decoded POI of a row, if its geometry decodes. *)
Definition decoded (row : Row) : option POI :=
  match wkbPointToWKT (col_geom row) with
  | Ok wktString => Some (POI_of_row row wktString)
  | Err _ => None
  end.

(** A request that validates, and the rows its query returns. *)
Definition valid_request (db : DB) (bboxStr categoriesStr : string)
    (categories : category_set) (rows : Rows) : Prop :=
  ∃ bbox,
    parseBBox bboxStr = Ok bbox
    ∧ parseCategories categoriesStr = Ok categories
    ∧ db_Query db (bbox !!! BOTTOM) (bbox !!! TOP)
                  (bbox !!! LEFT) (bbox !!! RIGHT) = Ok rows.

(** The library reads the four literals of the example rectangle
    [-1,51,1,52] as their binary64 values. *)
Definition reads_example_bbox : Prop :=
  ParseFloat "-1" = Some 0xBFF0000000000000
  ∧ ParseFloat "51" = Some 0x4049800000000000
  ∧ ParseFloat "1" = Some 0x3FF0000000000000
  ∧ ParseFloat "52" = Some 0x404A000000000000.

(** The POI of the example row. *)
Definition example_POI (main : string) : POI :=
  POI_of_row (example_row main) (POINT_text long_m0_12 lat_51_5).

(** The library never lower-cases into one of the bytes [A] to [Z]. *)
Definition lowers_ascii : Prop :=
  ∀ s, has_upper (Map_unicode_ToLower s) = false.

End Words.

(** ** Reference data: the first part of [internal/refdata.go] *)

(** Go's [int] on the 64-bit targets the image is built for: a sum wraps
    into [-2^63, 2^63). *)
Definition int_wrap (z : Z) : Z := (z + 2 ^ 63) mod 2 ^ 64 - 2 ^ 63.

(** [%d] *)
Definition fmt_d (z : Z) : string :=
  if z <? 0 then "-" +:+ decimal (- z) else decimal z.

(** [type RefDataResponse struct] *)
Record RefDataResponse : Type := {
  RefData_Count : Z;
  RefData_LastUpdated : string;
  RefData_Categories : gmap string Z;
  RefData_Attribution : slice string;
}.

(** The rows of [SELECT main_category, alternate_category FROM poi_uk]:
    what each [rows.Next(); rows.Scan(&mainCategory, &alternateCategory)]
    gives, then [rows.Err()] and [rows.Close()]. *)
Record CategoryRows : Type := {
  cat_Scan : list (result (NullString * NullString));
  cat_Err : option string;
  cat_Close : option string;
}.

(** [*sql.DB], as far as [RefData] uses it: the query of
    [precomputeCategories] and the [QueryRow(...).Scan(&timestamp)] of
    [retrieveLastUpdated]. *)
Record RefDB : Type := {
  ref_Query : result CategoryRows;
  ref_QueryRow_Scan : result string;
}.

(** The closure [incr] of [precomputeCategories]. *)
Definition incr (key : string) (categories : gmap string Z) : gmap string Z :=
  let categories :=
    if bool_decide (is_Some (categories !! key)) then categories
    else <[key := 0]> categories in
  <[key := int_wrap (default 0 (categories !! key) + 1)]> categories.

(** How [RefData] returns: [log.Fatalf] ends the process, or the handler
    is installed; the handler gives the same reply to every request. *)
Inductive startup : Type :=
| Fatal (message : string)
| Handler (code : Z) (response : RefDataResponse).

Section RefDataModel.
Context {lib : GoLib}.

(** [func precomputeCategories], the loop [for rows.Next()]. *)
Fixpoint precompute_loop (scans : list (result (NullString * NullString)))
    (categories : gmap string Z) (count : Z) : result (gmap string Z * Z) :=
  match scans with
  | [] => Ok (categories, count)
  | Err e :: _ => Err ("error scanning row: " +:+ e)
  | Ok (mainCategory, alternateCategory) :: rest =>
      let categories :=
        if Valid mainCategory then incr (NullString_String mainCategory) categories
        else categories in
      let categories :=
        if Valid alternateCategory then
          fold_left (λ categories cat, incr (TrimSpace cat) categories)
            (Split (NullString_String alternateCategory) pipe) categories
        else categories in
      precompute_loop rest categories (int_wrap (count + 1))
  end.

Definition cat_deferred_Close (rows : CategoryRows) : list string :=
  match cat_Close rows with
  | Some e => ["error closing rows: " +:+ e]
  | None => []
  end.

(** [func precomputeCategories]: the lines it logs and what it returns. *)
Definition precomputeCategories (db : RefDB)
  : list string * result (gmap string Z * Z) :=
  let started := "Pre-computing POI categories..." in
  match ref_Query db with
  | Err e => ([started], Err ("error querying database: " +:+ e))
  | Ok rows =>
      match precompute_loop (cat_Scan rows) ∅ 0 with
      | Err e => (started :: cat_deferred_Close rows, Err e)
      | Ok (categories, count) =>
          match cat_Err rows with
          | Some e =>
              (started :: cat_deferred_Close rows,
               Err ("error during rows iteration: " +:+ e))
          | None =>
              (started
               :: ("Discovered " +:+ fmt_d (Z.of_nat (size categories))
                   +:+ " distinct categories from " +:+ fmt_d count
                   +:+ " points of interest")
               :: cat_deferred_Close rows,
               Ok (categories, count))
          end
      end
  end.

(** [func retrieveLastUpdated] *)
Definition retrieveLastUpdated (db : RefDB) : list string * result string :=
  match ref_QueryRow_Scan db with
  | Err e => ([], Err ("error retrieving timestamp: " +:+ e))
  | Ok timestamp =>
      if String.eqb timestamp "" then ([], Ok "unknown")
      else (["Last updated timestamp in db: " +:+ timestamp], Ok timestamp)
  end.

(** [func RefData]; [ATTRIBUTION] is a package variable declared outside
    the sources. *)
Definition RefData (ATTRIBUTION : slice string) (db : RefDB)
  : list string * startup :=
  let '(logged, computed) := precomputeCategories db in
  match computed with
  | Err e =>
      let message := "error pre-computing categories: " +:+ e in
      (logged ++ [message], Fatal message)
  | Ok (categories, count) =>
      let '(logged', updated) := retrieveLastUpdated db in
      match updated with
      | Err e =>
          let message := "error retrieving last updated timestamp: " +:+ e in
          (logged ++ logged' ++ [message], Fatal message)
      | Ok lastUpdated =>
          (logged ++ logged',
           Handler StatusOK
             {| RefData_Count := count;
                RefData_LastUpdated := lastUpdated;
                RefData_Categories := categories;
                RefData_Attribution := ATTRIBUTION |})
      end
  end.

(** The first version of the handler ([func search], before the
    [categories] parameter): its loop appends every row. *)
Fixpoint search_loop (scans : list (result Row)) (results : slice POI)
    (poi : POI) : loop_end :=
  match scans with
  | [] => Finished results
  | Err e :: _ => Returned ("error scanning row: " +:+ e)
  | Ok row :: rest =>
      let geomBytes := col_geom row in
      let mainCategory := col_main_category row in
      let alternateCategory := col_alternate_category row in
      let poi := Scan_poi row poi in
      match wkbPointToWKT geomBytes with
      | Err e => Returned ("error converting WKB to WKT: " +:+ e)
      | Ok wktString =>
          let poi := set_Geom wktString poi in
          let poi := set_Categories (categoryTags mainCategory alternateCategory) poi in
          let results := append results poi in
          search_loop rest results poi
      end
  end.

(** [func search] on the package variable [db] and the query parameter
    [bbox]. *)
Definition search (db : DB) (bboxStr : string) : list string * Reply :=
  match parseBBox bboxStr with
  | Err e => ([], bad_request e)
  | Ok bbox =>
      match db_Query db (bbox !!! BOTTOM) (bbox !!! TOP)
                       (bbox !!! LEFT) (bbox !!! RIGHT) with
      | Err e => (["error querying database: " +:+ e], internal_server_error)
      | Ok rows =>
          match search_loop (rows_Scan rows) nil_slice zero_POI with
          | Returned logged =>
              (logged :: deferred_Close rows, internal_server_error)
          | Finished results =>
              match rows_Err rows with
              | Some e =>
                  (("error during rows iteration: " +:+ e) :: deferred_Close rows,
                   internal_server_error)
              | None => (deferred_Close rows, ok_response results)
              end
          end
      end
  end.

(** The tags of all the rows of the category query, in row order. *)
Definition all_tags (rs : list (NullString * NullString)) : list string :=
  concat (map (λ r, categoryTags (fst r) (snd r)) rs).

End RefDataModel.

(** The two queries of [RefData] run against the table [poi_uk] held in
    memory, and a [last_change] on record. *)
Definition category_columns (poi_uk : list Row) : list (NullString * NullString) :=
  map (λ row, (col_main_category row, col_alternate_category row)) poi_uk.

Definition poi_uk_refdb (poi_uk : list Row) (last_change : result string) : RefDB := {|
  ref_Query :=
    Ok {| cat_Scan := map Ok (category_columns poi_uk);
          cat_Err := None; cat_Close := None |};
  ref_QueryRow_Scan := last_change;
|}.

(** How often [k] occurs in [l]. *)
Fixpoint occurrences (k : string) (l : list string) : nat :=
  match l with
  | [] => 0
  | x :: r => (if String.eqb k x then 1 else 0) + occurrences k r
  end.

(** What a map of counters holds for [k] after the keys of [l]: how often
    [k] occurred, and nothing for a key that did not. *)
Definition counts_of (l : list string) (k : string) : option Z :=
  if (occurrences k l =? 0)%nat then None else Some (Z.of_nat (occurrences k l)).

(** How often the byte [sep] occurs in [s]. *)
Fixpoint count_byte (sep : ascii) (s : string) : nat :=
  match s with
  | EmptyString => 0
  | String c r => (if Ascii.eqb c sep then 1 else 0) + count_byte sep r
  end.

(** ** Markers: [internal/markers.go] *)

(** What [Marker] and [Shadow] do with the context: a JSON error, or a
    file with the Content-Type header set before. *)
Inductive MarkerReply : Type :=
| marker_error (code : Z) (msg : string)
| marker_File (content_type : string) (filepath : string).

(** [func Marker] on the path parameter [category]; [icons] is the package
    variable filled from the embedded mappings file. *)
Definition Marker (icons : gmap string string) (category : string) : MarkerReply :=
  if String.eqb category "" then marker_error 400 "category is required"
  else
    let icon := default "" (icons !! category) in
    let exists_ := bool_decide (is_Some (icons !! category)) in
    if String.eqb icon "" || negb exists_ then
      marker_error 404 "category not found"
    else marker_File "image/png" ("./data/markers/" +:+ icon).

(** [func Shadow] *)
Definition Shadow : MarkerReply :=
  marker_File "image/png" "./data/markers/_shadow.png".

(** * Properties *)

Local Set Warnings "-clear-no-such-hyp".

Section Strings.
Context {lib : GoLib}.

Lemma Split_not_nil (s : string) (sep : ascii) : Split s sep ≠ [].
Proof.
  induction s as [|c r IH]; simpl; [discriminate|].
  destruct (Ascii.eqb c sep); [discriminate|].
  destruct (Split r sep); discriminate.
Qed.

Lemma lower_byte_not_upper (c : ascii) : is_upper (lower_byte c) = false.
Proof. destruct c as [[] [] [] [] [] [] [] []]; reflexivity. Qed.

Lemma map_lower_no_upper (s : string) :
  has_upper (map_bytes lower_byte s) = false.
Proof.
  induction s as [|c r IH]; simpl; [reflexivity|].
  now rewrite lower_byte_not_upper, IH.
Qed.

Lemma ToLower_no_upper (s : string) :
  lowers_ascii → has_upper (ToLower s) = false.
Proof.
  intros Hlib. unfold ToLower.
  destruct (isASCII s); [apply map_lower_no_upper | apply Hlib].
Qed.

End Strings.

Section Filter.
Context {lib : GoLib}.

(** The loop of [parseCategories], from any set built so far. *)
Lemma parseCategories_loop_spec (cats : list string) (acc : gset string) :
  parseCategories_loop cats acc =
    if existsb (λ t, String.eqb t "") (map TrimSpace cats)
    then Err "category cannot be an empty string"
    else Ok (Some (lowered_set (map TrimSpace cats) ∪ acc)).
Proof.
  revert acc. induction cats as [|cat rest IH]; intros acc; simpl.
  - do 2 f_equal. unfold lowered_set. simpl. set_solver.
  - destruct (String.eqb (TrimSpace cat) ""); simpl; [reflexivity|].
    rewrite IH. destruct (existsb _ _); [reflexivity|].
    do 2 f_equal. unfold lowered_set. simpl. set_solver.
Qed.

Lemma parseCategories_spec (s : string) :
  s ≠ "" →
  parseCategories s =
    if existsb (λ t, String.eqb t "") (tokens s)
    then Err "category cannot be an empty string"
    else Ok (Some (lowered_set (tokens s))).
Proof.
  intros Hs. unfold parseCategories.
  destruct (String.eqb s "") eqn:E; [apply String.eqb_eq in E; contradiction|].
  rewrite parseCategories_loop_spec. unfold tokens.
  destruct (existsb _ _); [reflexivity|].
  do 2 f_equal. set_solver.
Qed.

Lemma tokens_not_nil (s : string) : tokens s ≠ [].
Proof.
  unfold tokens. pose proof (Split_not_nil s comma).
  destruct (Split s comma); [contradiction | discriminate].
Qed.

(** A compiled filter is the nil map or a set with an element. *)
Lemma parseCategories_Some_nonempty (s : string) (filter_set : gset string) :
  parseCategories s = Ok (Some filter_set) → filter_set ≠ ∅.
Proof.
  intros H. destruct (decide (s = "")) as [->|Hs]; [discriminate|].
  rewrite (parseCategories_spec s Hs) in H.
  destruct (existsb _ _); [discriminate|].
  injection H as <-. pose proof (tokens_not_nil s) as Hne.
  unfold lowered_set. destruct (tokens s) as [|t ts]; [contradiction|].
  simpl. set_solver.
Qed.

Lemma parseCategories_Some_lowered (s : string) (filter_set : gset string) :
  parseCategories s = Ok (Some filter_set) →
  ∀ x, x ∈ filter_set → ∃ t, x = ToLower t.
Proof.
  intros H x Hx. destruct (decide (s = "")) as [->|Hs]; [discriminate|].
  rewrite (parseCategories_spec s Hs) in H.
  destruct (existsb _ _); [discriminate|].
  injection H as <-. unfold lowered_set in Hx.
  apply elem_of_list_to_set, list_elem_of_fmap in Hx as (t & -> & _).
  now exists t.
Qed.

Lemma parseCategories_None (s : string) :
  parseCategories s = Ok None → s = "".
Proof.
  intros H. destruct (decide (s = "")) as [->|Hs]; [reflexivity|].
  rewrite (parseCategories_spec s Hs) in H.
  destruct (existsb _ _); discriminate.
Qed.

Lemma hasCategoryMatch_existsb (items : list string) (categories : category_set) :
  hasCategoryMatch items categories = existsb (exists_in categories) items.
Proof.
  induction items as [|item rest IH]; simpl; [reflexivity|].
  rewrite IH. now destruct (exists_in categories item).
Qed.

Lemma hasCategoryMatch_iff (items : list string) (filter_set : gset string) :
  hasCategoryMatch items (Some filter_set) = true
  ↔ ∃ tag, tag ∈ items ∧ tag ∈ filter_set.
Proof.
  rewrite hasCategoryMatch_existsb, existsb_exists. split.
  - intros (tag & Hin & Hx). exists tag. split.
    + now apply list_elem_of_In.
    + simpl in Hx. now apply bool_decide_eq_true in Hx.
  - intros (tag & Hin & Hx). exists tag. split.
    + now apply list_elem_of_In.
    + simpl. now apply bool_decide_eq_true.
Qed.

(** The test of [Search] line 225 on a compiled filter is [passes]. *)
Lemma Search_test_passes (categories : category_set) (tags : list string) :
  categories ≠ Some ∅ →
  (len_map categories =? 0)%nat || hasCategoryMatch tags categories
  = passes categories tags.
Proof.
  intros Hne. destruct categories as [filter_set|]; simpl.
  - rewrite hasCategoryMatch_existsb.
    destruct (size filter_set =? 0)%nat eqn:E; [|reflexivity].
    apply Nat.eqb_eq, size_empty_iff in E.
    exfalso. apply Hne. f_equal. now apply leibniz_equiv.
  - reflexivity.
Qed.

End Filter.

Section Tagger.
Context {lib : GoLib}.

Lemma fold_append_trimmed (pieces : list string) (cats : list string) :
  fold_left (λ cats cat, cats ++ [TrimSpace cat]) pieces cats
  = cats ++ map TrimSpace pieces.
Proof.
  revert cats. induction pieces as [|piece rest IH]; intros cats; simpl.
  - now rewrite app_nil_r.
  - rewrite IH. now rewrite <- app_assoc.
Qed.

Lemma categoryTags_tagger (mainCategory alternateCategory : NullString) :
  categoryTags mainCategory alternateCategory
  = tagger (nullable mainCategory) (nullable alternateCategory).
Proof.
  unfold categoryTags, tagger, nullable.
  destruct (Valid mainCategory), (Valid alternateCategory); simpl;
    try rewrite fold_append_trimmed; reflexivity.
Qed.

(** C7: the tag list [Search] builds for a row is the primary category
    first when it is non-null, then every piece of the alternate category
    split on the pipe, each trimmed and kept even when empty, in order,
    with no change of case and no removal of duplicates; two nulls give the
    empty list; Cafe with [Bakery| Dessert Shop ] gives Cafe, Bakery,
    Dessert Shop. *)
Theorem C7_category_tags :
  (∀ mainCategory alternateCategory,
     categoryTags mainCategory alternateCategory
     = tagger (nullable mainCategory) (nullable alternateCategory))
  ∧ (∀ primary alternate,
       length (tagger primary alternate)
       = (match primary with Some _ => 1 | None => 0 end
          + match alternate with
            | Some a => length (Split a pipe)
            | None => 0
            end)%nat)
  ∧ categoryTags null_string null_string = []
  ∧ categoryTags (some_string "Cafe") (some_string "Bakery| Dessert Shop ")
    = ["Cafe"; "Bakery"; "Dessert Shop"]
  ∧ categoryTags (some_string "Cafe") (some_string "cafe| |Cafe||CAFE")
    = ["Cafe"; "cafe"; ""; "Cafe"; ""; "CAFE"].
Proof.
  split; [exact categoryTags_tagger|].
  split.
  { intros primary alternate. unfold tagger. rewrite length_app.
    destruct primary, alternate; simpl; try rewrite length_map; reflexivity. }
  repeat split; reflexivity.
Qed.

End Tagger.

Section Compiler.
Context {lib : GoLib}.

Lemma existsb_empty_Exists (toks : list string) :
  existsb (λ t, String.eqb t "") toks = true ↔ Exists (λ t, t = "") toks.
Proof.
  rewrite existsb_exists, Exists_exists. split.
  - intros (t & Hin & Ht). exists t. split.
    + now apply list_elem_of_In.
    + now apply String.eqb_eq.
  - intros (t & Hin & Ht). exists t. split.
    + now apply list_elem_of_In.
    + now apply String.eqb_eq.
Qed.

Lemma existsb_empty_Forall (toks : list string) :
  Forall (λ t, t ≠ "") toks → existsb (λ t, String.eqb t "") toks = false.
Proof.
  intros Hall. destruct (existsb _ toks) eqn:E; [|reflexivity].
  apply existsb_empty_Exists, Exists_exists in E as (t & Hin & ->).
  rewrite Forall_forall in Hall. now specialize (Hall "" Hin).
Qed.

(** C8: [parseCategories] maps the empty string to the nil map (match
    all); a non-empty string is split on commas and each token trimmed; if
    a trimmed token is empty the result is the error "category cannot be an
    empty string"; otherwise it is the set of the lower-cased trimmed
    tokens, in which a token given twice is one element.  [A, b ,C] gives
    the set of a, b, c and [a,,b] fails. *)
Theorem C8_parseCategories :
  parseCategories "" = Ok None
  ∧ (∀ s, s ≠ "" →
       (Exists (λ t, t = "") (tokens s) →
          parseCategories s = Err "category cannot be an empty string")
       ∧ (Forall (λ t, t ≠ "") (tokens s) →
            parseCategories s = Ok (Some (lowered_set (tokens s)))))
  ∧ (∀ toks x, x ∈ lowered_set toks ↔ ∃ t, t ∈ toks ∧ x = ToLower t)
  ∧ parseCategories "A, b ,C" = Ok (Some {[ "a"; "b"; "c" ]})
  ∧ parseCategories "a, B,a,b" = Ok (Some {[ "a"; "b" ]})
  ∧ parseCategories "a,,b" = Err "category cannot be an empty string".
Proof.
  split; [reflexivity|]. split.
  { intros s Hs. rewrite (parseCategories_spec s Hs). split.
    - intros Hex. apply existsb_empty_Exists in Hex. now rewrite Hex.
    - intros Hall. now rewrite existsb_empty_Forall. }
  split.
  { intros toks x. unfold lowered_set.
    rewrite elem_of_list_to_set, list_elem_of_fmap. split.
    - intros (t & -> & Hin). now exists t.
    - intros (t & Hin & ->). now exists t. }
  repeat split; vm_compute; reflexivity.
Qed.

End Compiler.

Section Decoder.
Context {lib : GoLib}.

(** The four outcomes of [wkbPointToWKT], by the tests it makes in order. *)
Lemma wkbPointToWKT_short (b : list byte) :
  (length b < 8)%nat →
  wkbPointToWKT b
  = Err "input byte slice is too short to contain a GeoPackage header and WKB data".
Proof.
  intros Hlen. unfold wkbPointToWKT.
  destruct (Nat.ltb_spec (length b) 8) as [_|Hge]; [reflexivity | lia].
Qed.

Lemma wkbPointToWKT_long (b : list byte) :
  (8 ≤ length b)%nat →
  wkbPointToWKT b
  = match wkb_Unmarshal (drop 8 b) with
    | Err e => Err ("error unmarshaling WKB: " +:+ e)
    | Ok g =>
        if negb (is_Point g) then
          Err ("decoded geometry is not a Point, but a " +:+ typeName g)
        else
          match wkt_Marshal g with
          | Err e => Err ("error marshaling to WKT: " +:+ e)
          | Ok wktString => Ok wktString
          end
    end.
Proof.
  intros Hlen. unfold wkbPointToWKT.
  destruct (Nat.ltb_spec (length b) 8) as [Hlt|_]; [lia | reflexivity].
Qed.

Lemma wkbPointToWKT_Ok (b : list byte) (s : string) :
  wkbPointToWKT b = Ok s →
  (8 ≤ length b)%nat
  ∧ ∃ layout coords,
      wkb_Unmarshal (drop 8 b) = Ok (Point layout coords)
      ∧ wkt_Marshal (Point layout coords) = Ok s.
Proof.
  intros H. destruct (Nat.lt_ge_cases (length b) 8) as [Hlt|Hge].
  - rewrite (wkbPointToWKT_short b Hlt) in H. discriminate.
  - split; [exact Hge|]. rewrite (wkbPointToWKT_long b Hge) in H.
    destruct (wkb_Unmarshal (drop 8 b)) as [g|e]; [|discriminate].
    destruct g as [layout coords| | | | | |]; simpl in H; try discriminate.
    destruct (wkt_Marshal (Point layout coords)) as [w|e] eqn:Ew;
      [|discriminate].
    injection H as <-. now exists layout, coords.
Qed.


Lemma typeName_kind (g g' : geom_T) :
  is_Point g = false → is_Point g' = false →
  typeName g = typeName g' → g = g'.
Proof. destruct g, g'; simpl; intros; congruence. Qed.

(** C6: [wkbPointToWKT] fails on every blob shorter than 8 bytes (too
    short to contain header and data), fails on every blob whose bytes
    after the header [wkb.Unmarshal] rejects, and fails, with a message of
    its own that names the Go type of the geometry, on every blob whose
    payload parses to a geometry that is not a point; it succeeds in none
    of these cases: when it succeeds the blob has 8 bytes or more and its
    payload parsed to a point, and for such a blob its result is the one
    of [wkt.Marshal] on that point. *)
Theorem C6_decode_failures :
  (∀ b, (length b < 8)%nat →
     wkbPointToWKT b
     = Err "input byte slice is too short to contain a GeoPackage header and WKB data")
  ∧ (∀ b e, (8 ≤ length b)%nat →
       wkb_Unmarshal (drop 8 b) = Err e →
       wkbPointToWKT b = Err ("error unmarshaling WKB: " +:+ e))
  ∧ (∀ b g, (8 ≤ length b)%nat →
       wkb_Unmarshal (drop 8 b) = Ok g →
       is_Point g = false →
       wkbPointToWKT b
       = Err ("decoded geometry is not a Point, but a " +:+ typeName g)
       ∧ (∀ e, "decoded geometry is not a Point, but a " +:+ typeName g
               ≠ "error unmarshaling WKB: " +:+ e)
       ∧ "decoded geometry is not a Point, but a " +:+ typeName g
         ≠ "input byte slice is too short to contain a GeoPackage header and WKB data"
       ∧ (∀ g', is_Point g' = false → typeName g = typeName g' → g = g'))
  ∧ (∀ b s, wkbPointToWKT b = Ok s →
       (8 ≤ length b)%nat
       ∧ ∃ layout coords,
           wkb_Unmarshal (drop 8 b) = Ok (Point layout coords)
           ∧ wkt_Marshal (Point layout coords) = Ok s)
  ∧ (∀ b layout coords, (8 ≤ length b)%nat →
       wkb_Unmarshal (drop 8 b) = Ok (Point layout coords) →
       wkbPointToWKT b
       = match wkt_Marshal (Point layout coords) with
         | Err e => Err ("error marshaling to WKT: " +:+ e)
         | Ok wktString => Ok wktString
         end).
Proof.
  split; [exact wkbPointToWKT_short|]. split.
  { intros b e Hlen Hu. now rewrite (wkbPointToWKT_long b Hlen), Hu. }
  split.
  { intros b g Hlen Hu Hg. split.
    - rewrite (wkbPointToWKT_long b Hlen), Hu, Hg. reflexivity.
    - split; [intros e; discriminate|].
      split; [discriminate|].
      intros g'. now apply typeName_kind. }
  split; [exact wkbPointToWKT_Ok|].
  intros b layout coords Hlen Hu.
  now rewrite (wkbPointToWKT_long b Hlen), Hu.
Qed.


End Decoder.

Section StubCodec.









End StubCodec.

Section Rectangle.
Context {lib : GoLib}.

Lemma parseBBox_count (s : string) :
  length (Split s comma) ≠ 4%nat →
  parseBBox s = Err "bbox must have 4 comma-separated values".
Proof.
  intros Hlen. unfold parseBBox.
  destruct (Nat.eqb_spec (length (Split s comma)) 4); [contradiction | reflexivity].
Qed.

Lemma parseBBox_four (s a b c d : string) (va vb vc vd : float64) :
  Split s comma = [a; b; c; d] →
  ParseFloat (TrimSpace a) = Some va →
  ParseFloat (TrimSpace b) = Some vb →
  ParseFloat (TrimSpace c) = Some vc →
  ParseFloat (TrimSpace d) = Some vd →
  parseBBox s = Ok [va; vb; vc; vd].
Proof.
  intros Hs Ha Hb Hc Hd. unfold parseBBox. rewrite Hs.
  cbn [length Nat.eqb negb parseBBox_loop]. now rewrite Ha, Hb, Hc, Hd.
Qed.

(** The loop stops at the first piece that does not parse, and names it
    as it stands in the input. *)
Lemma parseBBox_loop_first_bad (before after : list string) (bad : string)
    (i : nat) (bbox : list float64) :
  Forall (λ part, ParseFloat (TrimSpace part) ≠ None) before →
  ParseFloat (TrimSpace bad) = None →
  parseBBox_loop i (before ++ bad :: after) bbox
  = Err ("invalid bbox value '" +:+ bad +:+ "': not a valid float").
Proof.
  intros Hbefore Hbad. revert i bbox.
  induction Hbefore as [|part before Hpart _ IH]; intros i bbox; simpl.
  - now rewrite Hbad.
  - destruct (ParseFloat (TrimSpace part)); [apply IH | contradiction].
Qed.

(** C9: [parseBBox] splits its input on commas and fails when the pieces
    are not exactly four; otherwise it trims each piece and parses it as a
    float, in order: the first piece that does not parse makes it fail with
    a message that quotes that piece, and four pieces that parse give the
    four values in the order left, bottom, right, top, whatever the values
    are (no range or ordering check).  [1,2,3,4] gives left 1, bottom 2,
    right 3, top 4. *)
Theorem C9_parseBBox :
  (∀ s, length (Split s comma) ≠ 4%nat →
     parseBBox s = Err "bbox must have 4 comma-separated values")
  ∧ (∀ s before bad after,
       Split s comma = before ++ bad :: after →
       length (before ++ bad :: after) = 4%nat →
       Forall (λ part, ParseFloat (TrimSpace part) ≠ None) before →
       ParseFloat (TrimSpace bad) = None →
       parseBBox s = Err ("invalid bbox value '" +:+ bad +:+ "': not a valid float"))
  ∧ (∀ s a b c d va vb vc vd,
       Split s comma = [a; b; c; d] →
       ParseFloat (TrimSpace a) = Some va →
       ParseFloat (TrimSpace b) = Some vb →
       ParseFloat (TrimSpace c) = Some vc →
       ParseFloat (TrimSpace d) = Some vd →
       ∃ bbox, parseBBox s = Ok bbox
         ∧ bbox !!! LEFT = va ∧ bbox !!! BOTTOM = vb
         ∧ bbox !!! RIGHT = vc ∧ bbox !!! TOP = vd
         ∧ length bbox = 4%nat)
  ∧ (∀ one two three four,
       ParseFloat "1" = Some one → ParseFloat "2" = Some two →
       ParseFloat "3" = Some three → ParseFloat "4" = Some four →
       parseBBox "1,2,3,4" = Ok [one; two; three; four]).
Proof.
  split; [exact parseBBox_count|]. split.
  { intros s before bad after Hs Hlen Hbefore Hbad. unfold parseBBox.
    rewrite Hs, Hlen. cbn [Nat.eqb negb].
    now apply parseBBox_loop_first_bad. }
  split.
  { intros s a b c d va vb vc vd Hs Ha Hb Hc Hd.
    exists [va; vb; vc; vd]. split; [|repeat split].
    now apply (parseBBox_four s a b c d). }
  intros one two three four H1 H2 H3 H4.
  now apply (parseBBox_four "1,2,3,4" "1" "2" "3" "4").
Qed.

End Rectangle.

Section Pipeline.
Context {lib : GoLib}.

Lemma Search_valid (db : DB) (bboxStr categoriesStr : string)
    (categories : category_set) (rows : Rows) :
  valid_request db bboxStr categoriesStr categories rows →
  Search db bboxStr categoriesStr = Search_rows categories rows.
Proof.
  intros (bbox & Hb & Hc & Hq). unfold Search. now rewrite Hb, Hc, Hq.
Qed.

Lemma valid_request_filter (db : DB) (bboxStr categoriesStr : string)
    (categories : category_set) (rows : Rows) :
  valid_request db bboxStr categoriesStr categories rows →
  categories ≠ Some ∅.
Proof.
  intros (bbox & _ & Hc & _) ->.
  now apply parseCategories_Some_nonempty in Hc.
Qed.

Lemma elems_append_all {A} (l : list A) (results : slice A) :
  elems (append_all results l) = elems results ++ l.
Proof.
  revert results. induction l as [|x l IH]; intros results.
  - simpl. now rewrite app_nil_r.
  - unfold append_all in *. simpl. rewrite IH. simpl. now rewrite <- app_assoc.
Qed.

(** The reused [poi] carries nothing from one row to the next. *)
Lemma poi_fields (row : Row) (poi : POI) (wktString : string) :
  set_Categories
    (categoryTags (col_main_category row) (col_alternate_category row))
    (set_Geom wktString (Scan_poi row poi))
  = POI_of_row row wktString.
Proof. reflexivity. Qed.

Lemma passes_iff (categories : category_set) (tags : list string) :
  passes categories tags = true
  ↔ categories = None
    ∨ ∃ filter_set tag,
        categories = Some filter_set ∧ tag ∈ tags ∧ tag ∈ filter_set.
Proof.
  destruct categories as [filter_set|]; simpl.
  - rewrite existsb_exists. split.
    + intros (tag & Hin & Hx). right. exists filter_set, tag.
      repeat split; [now apply list_elem_of_In|].
      now apply bool_decide_eq_true in Hx.
    + intros [?|(fs & tag & [= <-] & Hin & Hx)]; [discriminate|].
      exists tag. split; [now apply list_elem_of_In|].
      now apply bool_decide_eq_true.
  - split; [now left | reflexivity].
Qed.

(** When every row scans and decodes, the loop ends with the POIs that
    pass the filter appended in row order. *)
Lemma Search_loop_all_decode (categories : category_set) (rs : list Row)
    (results : slice POI) (poi : POI) :
  categories ≠ Some ∅ →
  Forall (λ row, is_Ok (wkbPointToWKT (col_geom row)) = true) rs →
  Search_loop categories (map Ok rs) results poi
  = Finished
      (append_all results
         (List.filter (λ p, passes categories (Categories p)) (omap decoded rs))).
Proof.
  intros Hne Hall. revert results poi.
  induction Hall as [|row rs Hrow _ IH]; intros results poi; [reflexivity|].
  cbn [map Search_loop].
  change (omap decoded (row :: rs))
    with (match decoded row with
          | Some p => p :: omap decoded rs
          | None => omap decoded rs
          end).
  unfold decoded at 1.
  destruct (wkbPointToWKT (col_geom row)) as [w|e]; [|discriminate].
  cbv zeta. rewrite poi_fields.
  rewrite Search_test_passes by assumption. cbn [List.filter].
  rewrite IH. destruct (passes categories _); reflexivity.
Qed.

Lemma length_omap_decoded (rs : list Row) :
  Forall (λ row, is_Ok (wkbPointToWKT (col_geom row)) = true) rs →
  length (omap decoded rs) = length rs.
Proof.
  induction 1 as [|row rs Hrow _ IH]; [reflexivity|].
  change (omap decoded (row :: rs))
    with (match decoded row with
          | Some p => p :: omap decoded rs
          | None => omap decoded rs
          end).
  unfold decoded at 1.
  destruct (wkbPointToWKT (col_geom row)); [|discriminate].
  simpl. now rewrite IH.
Qed.



(** What holds of every POI that passes the test of line 225 holds of
    every result. *)
Lemma Search_loop_results (P : POI → Prop) (categories : category_set)
    (scans : list (result Row)) (results final : slice POI) (poi : POI) :
  (∀ p, (len_map categories =? 0)%nat
        || hasCategoryMatch (Categories p) categories = true → P p) →
  Forall P (elems results) →
  Search_loop categories scans results poi = Finished final →
  Forall P (elems final).
Proof.
  intros HP. revert results poi.
  induction scans as [|[row|e] scans IH]; intros results poi Hres H;
    cbn [Search_loop] in H.
  - now injection H as <-.
  - destruct (wkbPointToWKT (col_geom row)) as [w|e]; [|discriminate].
    revert H. cbv zeta. rewrite poi_fields.
    destruct (_ || _) eqn:Etest; intros H;
      apply IH in H; try assumption.
    simpl. apply Forall_app. split; [assumption|].
    constructor; [|constructor]. now apply HP.
  - discriminate.
Qed.

End Pipeline.

Section Requests.
Context {lib : GoLib}.

Lemma append_all_nil {A} (l : list A) :
  append_all nil_slice l = nil_slice ↔ l = [].
Proof.
  split; [|now intros ->].
  intros H. pose proof (elems_append_all l nil_slice) as He.
  rewrite H in He. simpl in He. now symmetry.
Qed.

(** C2: for every request whose rectangle and filter validate and whose
    rows all scan and decode, the handler answers with status 200 and a
    body whose [Results] are exactly the decoded POIs, in row order, for
    which the compiled filter is the nil map (match all) or some tag of
    the POI is a member of the filter set ([Results] is the nil slice
    exactly when there is none); the others are dropped and nothing is
    logged for them. *)
Theorem C2_filtered_in_order (db : DB) (bboxStr categoriesStr : string)
    (categories : category_set) (rows : Rows) (rs : list Row) :
  valid_request db bboxStr categoriesStr categories rows →
  rows_Scan rows = map Ok rs →
  rows_Err rows = None →
  Forall (λ row, is_Ok (wkbPointToWKT (col_geom row)) = true) rs →
  ∃ results,
    Search db bboxStr categoriesStr
    = (match rows_Close rows with
       | Some e => ["error closing rows: " +:+ e]
       | None => []
       end,
       {| status := 200;
          body := body_Response {| Results := results |} |})
    ∧ elems results
      = List.filter (λ p, passes categories (Categories p)) (omap decoded rs)
    ∧ (results = nil_slice
       ↔ List.filter (λ p, passes categories (Categories p)) (omap decoded rs)
         = [])
    ∧ length (omap decoded rs) = length rs
    ∧ ∀ tags,
        passes categories tags = true
        ↔ categories = None
          ∨ ∃ filter_set tag,
              categories = Some filter_set ∧ tag ∈ tags ∧ tag ∈ filter_set.
Proof.
  intros Hvalid Hscan Herr Hall.
  pose proof (valid_request_filter _ _ _ _ _ Hvalid) as Hne.
  exists (append_all nil_slice
            (List.filter (λ p, passes categories (Categories p))
               (omap decoded rs))).
  split; [|split; [|split; [|split]]].
  - rewrite (Search_valid _ _ _ _ _ Hvalid). unfold Search_rows.
    rewrite Hscan, (Search_loop_all_decode _ _ _ _ Hne Hall), Herr.
    reflexivity.
  - now rewrite elems_append_all.
  - apply append_all_nil.
  - now apply length_omap_decoded.
  - intros tags. apply passes_iff.
Qed.


(** C4, as the code has it: a valid search whose query returns no row
    answers 200 with [Results] the nil slice, which encoding/json writes as
    null: the body is the object with the one member results, null. *)
Theorem C4_no_rows_null (db : DB) (bboxStr categoriesStr : string)
    (categories : category_set) (rows : Rows) :
  valid_request db bboxStr categoriesStr categories rows →
  rows_Scan rows = [] →
  rows_Err rows = None →
  snd (Search db bboxStr categoriesStr) = ok_response nil_slice
  ∧ json_Body (body (snd (Search db bboxStr categoriesStr)))
    = JObject [("results", JNull)].
Proof.
  intros Hvalid Hscan Herr.
  rewrite (Search_valid _ _ _ _ _ Hvalid). unfold Search_rows.
  rewrite Hscan. cbn [Search_loop]. rewrite Herr. split; reflexivity.
Qed.

(** The example rectangle validates and selects the example row. *)
Lemma example_valid (main categoriesStr : string) (categories : category_set) :
  reads_example_bbox →
  parseCategories categoriesStr = Ok categories →
  valid_request (poi_uk_db [example_row main]) example_bbox categoriesStr
    categories
    (sound_rows [example_row main]).
Proof.
  intros (Hl & Hb & Hr & Ht) Hc.
  exists [0xBFF0000000000000; 0x4049800000000000;
          0x3FF0000000000000; 0x404A000000000000].
  split; [|split; [exact Hc | reflexivity]].
  now apply (parseBBox_four example_bbox "-1" "51" "1" "52").
Qed.

Lemma example_decoded (main w : string) :
  wkbPointToWKT (gpkg_header ++ wkb_point NDR long_m0_12 lat_51_5) = Ok w →
  decoded (example_row main) = Some (POI_of_row (example_row main) w).
Proof.
  intros Hw. unfold decoded. cbn [col_geom example_row]. now rewrite Hw.
Qed.

Lemma example_Search (main categoriesStr w : string)
    (categories : category_set) :
  reads_example_bbox →
  wkbPointToWKT (gpkg_header ++ wkb_point NDR long_m0_12 lat_51_5) = Ok w →
  parseCategories categoriesStr = Ok categories →
  Search (poi_uk_db [example_row main]) example_bbox categoriesStr
  = ([], {| status := 200;
            body := body_Response
              {| Results :=
                   if passes categories
                        (Categories (POI_of_row (example_row main) w))
                   then mk_slice [POI_of_row (example_row main) w]
                   else nil_slice |} |}).
Proof.
  intros Hbbox Hw Hc.
  pose proof (example_valid main categoriesStr categories Hbbox Hc) as Hvalid.
  pose proof (valid_request_filter _ _ _ _ _ Hvalid) as Hne.
  rewrite (Search_valid _ _ _ _ _ Hvalid). unfold Search_rows.
  cbn [rows_Scan rows_Err sound_rows].
  rewrite (Search_loop_all_decode _ _ _ _ Hne).
  - change (omap decoded [example_row main])
      with (match decoded (example_row main) with
            | Some p => [p]
            | None => []
            end).
    rewrite (example_decoded main w Hw). cbn [List.filter].
    destruct (passes categories _); reflexivity.
  - constructor; [|constructor].
    cbn [col_geom example_row]. now rewrite Hw.
Qed.

(** C1, as the code has it: the row at lat 51.5, long -0.12 with primary
    category Cafe and alternate category Bakery lies inside the rectangle
    -1,51,1,52 and has the tag list Cafe, Bakery; whatever text [w] its
    geometry decodes to, a search with categories=cafe answers 200 with no
    result, as does categories=zoo, because the tags are compared as stored
    with the lower-cased filter; with no categories parameter the row is
    returned with tags Cafe, Bakery and geometry [w], and the same row
    stored with primary category cafe is returned by categories=cafe with
    tags cafe, Bakery. *)
Theorem C1_end_to_end (w : string) :
  reads_example_bbox →
  wkbPointToWKT (gpkg_header ++ wkb_point NDR long_m0_12 lat_51_5) = Ok w →
  (BETWEEN lat_51_5 0x4049800000000000 0x404A000000000000
   && BETWEEN long_m0_12 0xBFF0000000000000 0x3FF0000000000000 = true)
  ∧ Categories (POI_of_row (example_row "Cafe") w) = ["Cafe"; "Bakery"]
  ∧ Categories (POI_of_row (example_row "cafe") w) = ["cafe"; "Bakery"]
  ∧ Geom (POI_of_row (example_row "Cafe") w) = w
  ∧ Search (poi_uk_db [example_row "Cafe"]) example_bbox "cafe"
    = ([], {| status := 200;
              body := body_Response {| Results := nil_slice |} |})
  ∧ Search (poi_uk_db [example_row "Cafe"]) example_bbox "zoo"
    = ([], {| status := 200;
              body := body_Response {| Results := nil_slice |} |})
  ∧ Search (poi_uk_db [example_row "Cafe"]) example_bbox ""
    = ([], {| status := 200;
              body := body_Response
                {| Results := mk_slice [POI_of_row (example_row "Cafe") w] |} |})
  ∧ Search (poi_uk_db [example_row "cafe"]) example_bbox "cafe"
    = ([], {| status := 200;
              body := body_Response
                {| Results := mk_slice [POI_of_row (example_row "cafe") w] |} |}).
Proof.
  intros Hbbox Hw.
  split; [reflexivity|]. split; [reflexivity|]. split; [reflexivity|].
  split; [reflexivity|].
  split; [|split; [|split]].
  - now rewrite (example_Search "Cafe" "cafe" w (Some {[ "cafe" ]}) Hbbox Hw).
  - now rewrite (example_Search "Cafe" "zoo" w (Some {[ "zoo" ]}) Hbbox Hw).
  - now rewrite (example_Search "Cafe" "" w None Hbbox Hw).
  - now rewrite (example_Search "cafe" "cafe" w (Some {[ "cafe" ]}) Hbbox Hw).
Qed.

End Requests.

(** * The properties on the small instance *)

Section Instance.

Lemma stub_reads_example_bbox : @reads_example_bbox stub_lib.
Proof. repeat split. Qed.

Lemma stub_lowers_ascii : @lowers_ascii stub_lib.
Proof. intros s. apply map_lower_no_upper. Qed.

Lemma stub_valid (poi_uk : list Row) (categoriesStr : string)
    (categories : category_set) :
  @parseCategories stub_lib categoriesStr = Ok categories →
  @valid_request stub_lib (poi_uk_db poi_uk) example_bbox categoriesStr
    categories
    (sound_rows (select poi_uk 0x4049800000000000 0x404A000000000000
                               0xBFF0000000000000 0x3FF0000000000000)).
Proof.
  intros Hc.
  exists [0xBFF0000000000000; 0x4049800000000000;
          0x3FF0000000000000; 0x404A000000000000].
  split; [reflexivity|]. split; [exact Hc | reflexivity].
Qed.



(** The claim of C1 fails on the code: the row lies inside the rectangle
    and has the tags Cafe, Bakery, and the search with categories=cafe
    answers with no result. *)
Lemma C1_counterexample :
  select [example_row "Cafe"] 0x4049800000000000 0x404A000000000000
                              0xBFF0000000000000 0x3FF0000000000000
  = [example_row "Cafe"]
  ∧ @categoryTags stub_lib (col_main_category (example_row "Cafe"))
      (col_alternate_category (example_row "Cafe"))
    = ["Cafe"; "Bakery"]
  ∧ @parseCategories stub_lib "cafe" = Ok (Some {[ "cafe" ]})
  ∧ @Search stub_lib (poi_uk_db [example_row "Cafe"]) example_bbox "cafe"
    = ([], ok_response nil_slice).
Proof. repeat split; vm_compute; reflexivity. Qed.

Lemma C1_witness :
  @Search stub_lib (poi_uk_db [example_row "Cafe"]) example_bbox "cafe"
  = ([], {| status := 200;
            body := body_Response {| Results := nil_slice |} |})
  ∧ @Search stub_lib (poi_uk_db [example_row "Cafe"]) example_bbox ""
    = ([], {| status := 200;
              body := body_Response
                {| Results :=
                     mk_slice [@POI_of_row stub_lib (example_row "Cafe")
                                 (@POINT_text stub_lib long_m0_12 lat_51_5)] |} |})
  ∧ @Search stub_lib (poi_uk_db [example_row "cafe"]) example_bbox "cafe"
    = ([], {| status := 200;
              body := body_Response
                {| Results :=
                     mk_slice [@POI_of_row stub_lib (example_row "cafe")
                                 (@POINT_text stub_lib long_m0_12 lat_51_5)] |} |}).
Proof.
  destruct (@C1_end_to_end stub_lib
              (@POINT_text stub_lib long_m0_12 lat_51_5)
              stub_reads_example_bbox)
    as (_ & _ & _ & _ & Hcafe & _ & Hall & Hlower).
  - vm_compute. reflexivity.
  - exact (conj Hcafe (conj Hall Hlower)).
Defined.

Lemma C2_witness :
  ∃ results,
    @Search stub_lib (poi_uk_db example_table) example_bbox "cafe,zoo"
    = ([], {| status := 200;
              body := body_Response {| Results := results |} |})
    ∧ map Categories (elems results) = [["cafe"; "Bakery"]; ["zoo"; "Bakery"]]
    ∧ map Id (elems results) = ["poi-1"; "poi-1"].
Proof.
  destruct (@C2_filtered_in_order stub_lib (poi_uk_db example_table)
              example_bbox "cafe,zoo" (Some {[ "cafe"; "zoo" ]})
              (sound_rows example_table) example_table)
    as (results & HSearch & Helems & _).
  - apply (stub_valid example_table). vm_compute. reflexivity.
  - reflexivity.
  - reflexivity.
  - repeat constructor.
  - exists results. split; [exact HSearch|].
    rewrite Helems. split; vm_compute; reflexivity.
Defined.


(** The claim of C4 fails on the code: a valid search over an empty
    table, and one whose rectangle misses the only row, answer 200 with
    results null, not with an empty array. *)
Lemma C4_counterexample :
  status (snd (@Search stub_lib (poi_uk_db []) example_bbox "")) = 200
  ∧ json_Body (body (snd (@Search stub_lib (poi_uk_db []) example_bbox "")))
    = JObject [("results", JNull)]
  ∧ select [example_row "Cafe"] 0x4049800000000000 0x404A000000000000
                                0x4000000000000000 0x4008000000000000
    = []
  ∧ json_Body (body (snd (@Search stub_lib (poi_uk_db [example_row "Cafe"])
                            "2,51,3,52" "")))
    = JObject [("results", JNull)].
Proof. repeat split; vm_compute; reflexivity. Qed.

Lemma C4_witness :
  snd (@Search stub_lib (poi_uk_db []) example_bbox "") = ok_response nil_slice
  ∧ json_Body (body (snd (@Search stub_lib (poi_uk_db []) example_bbox "")))
    = JObject [("results", JNull)].
Proof.
  apply (@C4_no_rows_null stub_lib (poi_uk_db []) example_bbox "" None
           (sound_rows [])).
  - apply (stub_valid []). reflexivity.
  - reflexivity.
  - reflexivity.
Defined.




Lemma C6_witness :
  @wkbPointToWKT stub_lib short_blob
  = Err "input byte slice is too short to contain a GeoPackage header and WKB data"
  ∧ @wkbPointToWKT stub_lib cut_blob
    = Err "error unmarshaling WKB: unexpected EOF"
  ∧ @wkbPointToWKT stub_lib linestring_blob
    = Err "decoded geometry is not a Point, but a *geom.LineString"
  ∧ (8 ≤ length (col_geom (example_row "Cafe")))%nat.
Proof.
  destruct (@C6_decode_failures stub_lib)
    as (Hshort & Hparse & Hkind & Hok & _).
  split; [|split; [|split]].
  - apply Hshort. vm_compute. lia.
  - apply (Hparse cut_blob "unexpected EOF").
    + vm_compute. lia.
    + vm_compute. reflexivity.
  - apply (Hkind linestring_blob LineString).
    + vm_compute. lia.
    + vm_compute. reflexivity.
    + reflexivity.
  - apply (Hok (col_geom (example_row "Cafe"))
               (@POINT_text stub_lib long_m0_12 lat_51_5)).
    vm_compute. reflexivity.
Defined.

Lemma C8_witness :
  @parseCategories stub_lib "Cafe, ,zoo"
  = Err "category cannot be an empty string"
  ∧ @parseCategories stub_lib "Cafe, Zoo"
    = Ok (Some (@lowered_set stub_lib (@tokens stub_lib "Cafe, Zoo"))).
Proof.
  destruct (@C8_parseCategories stub_lib) as (_ & Hsplit & _).
  split.
  - apply (Hsplit "Cafe, ,zoo"); [discriminate|].
    vm_compute. apply Exists_cons_tl, Exists_cons_hd. reflexivity.
  - apply (Hsplit "Cafe, Zoo"); [discriminate|].
    vm_compute. repeat constructor; discriminate.
Defined.

Lemma C9_witness :
  @parseBBox stub_lib "1,2,3" = Err "bbox must have 4 comma-separated values"
  ∧ @parseBBox stub_lib "1, x,3,4"
    = Err "invalid bbox value ' x': not a valid float"
  ∧ (∃ bbox, @parseBBox stub_lib " 3 ,4,1,2" = Ok bbox
       ∧ bbox !!! LEFT = 0x4008000000000000
       ∧ bbox !!! BOTTOM = 0x4010000000000000
       ∧ bbox !!! RIGHT = 0x3FF0000000000000
       ∧ bbox !!! TOP = 0x4000000000000000
       ∧ length bbox = 4%nat)
  ∧ @parseBBox stub_lib "1,2,3,4"
    = Ok [0x3FF0000000000000; 0x4000000000000000;
          0x4008000000000000; 0x4010000000000000].
Proof.
  destruct (@C9_parseBBox stub_lib) as (Hcount & Hbad & Hfour & Hexample).
  split; [|split; [|split]].
  - apply Hcount. vm_compute. lia.
  - apply (Hbad "1, x,3,4" ["1"] " x" ["3"; "4"]).
    + reflexivity.
    + reflexivity.
    + repeat constructor. discriminate.
    + reflexivity.
  - apply (Hfour " 3 ,4,1,2" " 3 " "4" "1" "2"); reflexivity.
  - apply Hexample; reflexivity.
Defined.

End Instance.

(** * Further properties of the handlers *)

Section Validation.
Context {lib : GoLib}.

Lemma length_Split (s : string) (sep : ascii) :
  length (Split s sep) = S (count_byte sep s).
Proof.
  induction s as [|c r IH]; [reflexivity|]. cbn [Split count_byte].
  destruct (Ascii.eqb c sep); simpl; [now rewrite IH|].
  destruct (Split r sep); simpl in *; lia.
Qed.

(** X1: when [parseBBox] succeeds its input has exactly three commas, the
    slice it returns has exactly four elements (so the four index
    expressions of [Search] are in range), and the elements are what
    [ParseFloat] gave for the trimmed pieces, in order. *)
Theorem parseBBox_Ok_inv (s : string) (bbox : list float64) :
  parseBBox s = Ok bbox →
  count_byte comma s = 3%nat
  ∧ length bbox = 4%nat
  ∧ Forall2 (λ part v, ParseFloat (TrimSpace part) = Some v) (Split s comma) bbox.
Proof.
  unfold parseBBox. intros H.
  destruct (Nat.eqb_spec (length (Split s comma)) 4) as [Hlen|]; [|discriminate].
  split; [rewrite length_Split in Hlen; lia|].
  cbn [negb] in H.
  destruct (Split s comma) as [|a [|b [|c [|d [|]]]]]; try discriminate.
  cbn [parseBBox_loop] in H.
  destruct (ParseFloat (TrimSpace a)) as [va|] eqn:Ha; [|discriminate].
  destruct (ParseFloat (TrimSpace b)) as [vb|] eqn:Hb; [|discriminate].
  destruct (ParseFloat (TrimSpace c)) as [vc|] eqn:Hc; [|discriminate].
  destruct (ParseFloat (TrimSpace d)) as [vd|] eqn:Hd; [|discriminate].
  injection H as <-. split; [reflexivity|].
  repeat constructor; assumption.
Qed.

Lemma Search_rows_status (categories : category_set) (rows : Rows) :
  (status (snd (Search_rows categories rows)) = StatusOK
   ∧ ∃ results,
       Search_rows categories rows = (deferred_Close rows, ok_response results))
  ∨ (snd (Search_rows categories rows) = internal_server_error
     ∧ fst (Search_rows categories rows) ≠ []).
Proof.
  unfold Search_rows.
  destruct (Search_loop categories (rows_Scan rows) nil_slice zero_POI)
    as [logged|results].
  - right. split; [reflexivity | discriminate].
  - destruct (rows_Err rows).
    + right. split; [reflexivity | discriminate].
    + left. split; [reflexivity|]. now exists results.
Qed.

(** X2: [Search] answers 400 exactly when [parseBBox] or
    [parseCategories] fails; the body then carries the parser's message,
    that of [parseBBox] when both fail, nothing is logged, and the reply
    is the same for every database: the query is not run. *)
Theorem Search_bad_request (b c : string) :
  (∀ db e, parseBBox b = Err e → Search db b c = ([], bad_request e))
  ∧ (∀ db bbox e,
       parseBBox b = Ok bbox → parseCategories c = Err e →
       Search db b c = ([], bad_request e))
  ∧ (∀ db, status (snd (Search db b c)) = StatusBadRequest
           ↔ is_Ok (parseBBox b) && is_Ok (parseCategories c) = false).
Proof.
  split; [|split].
  - intros db e Hb. unfold Search. now rewrite Hb.
  - intros db bbox e Hb Hc. unfold Search. now rewrite Hb, Hc.
  - intros db. unfold Search.
    destruct (parseBBox b) as [bbox|e]; [|split; reflexivity].
    destruct (parseCategories c) as [categories|e]; [|split; reflexivity].
    destruct (db_Query db _ _ _ _) as [rows|e]; [|split; discriminate].
    destruct (Search_rows_status categories rows) as [[Hs _]|[Hs _]];
      rewrite Hs; split; discriminate.
Qed.

(** X3: the status of [Search] is 200, 400 or 500; a 500 always carries
    the one generic body, whatever failed, and is never silent: at least
    one line is logged; a 400 logs nothing. *)
Theorem Search_status (db : DB) (b c : string) :
  (status (snd (Search db b c)) = StatusOK
   ∨ status (snd (Search db b c)) = StatusBadRequest
   ∨ status (snd (Search db b c)) = StatusInternalServerError)
  ∧ (status (snd (Search db b c)) = StatusInternalServerError →
     snd (Search db b c) = internal_server_error ∧ fst (Search db b c) ≠ [])
  ∧ (status (snd (Search db b c)) = StatusBadRequest → fst (Search db b c) = []).
Proof.
  unfold Search.
  destruct (parseBBox b) as [bbox|e];
    [|split; [right; left; reflexivity | split; [discriminate | reflexivity]]].
  destruct (parseCategories c) as [categories|e];
    [|split; [right; left; reflexivity | split; [discriminate | reflexivity]]].
  destruct (db_Query db _ _ _ _) as [rows|e].
  - destruct (Search_rows_status categories rows)
      as [[Hs (results & Hr)]|[Hs Hl]].
    + rewrite Hr. split; [left; reflexivity | split; discriminate].
    + rewrite Hs. split; [right; right; reflexivity|].
      split; [now split | discriminate].
  - split; [right; right; reflexivity|].
    split; [split; [reflexivity | discriminate] | discriminate].
Qed.

End Validation.

Section Shape.
Context {lib : GoLib}.

Lemma Search_loop_nil_or_some (categories : category_set)
    (scans : list (result Row)) (results final : slice POI) (poi : POI) :
  results = nil_slice ∨ elems results ≠ [] →
  Search_loop categories scans results poi = Finished final →
  final = nil_slice ∨ elems final ≠ [].
Proof.
  revert results poi.
  induction scans as [|[row|e] scans IH]; intros results poi Hres H;
    cbn [Search_loop] in H.
  - now injection H as <-.
  - destruct (wkbPointToWKT (col_geom row)) as [w|e]; [|discriminate].
    revert H. cbv zeta. destruct (_ || _); intros H.
    + apply IH in H; [assumption|]. right. unfold append. simpl.
      now destruct (elems results).
    + now apply IH in H.
  - discriminate.
Qed.

(** X4: in a 200 reply of [Search] the slice [Results] is nil or has an
    element: the member results of the JSON body is null or a non-empty
    array, never the empty array. *)
Theorem Search_results_never_empty_array (db : DB) (b c : string)
    (logged : list string) (results : slice POI) :
  Search db b c = (logged, ok_response results) →
  (results = nil_slice ∨ elems results ≠ [])
  ∧ json_Response {| Results := results |} ≠ JObject [("results", JArray [])].
Proof.
  intros H.
  assert (results = nil_slice ∨ elems results ≠ []) as Hshape.
  { unfold Search in H.
    destruct (parseBBox b); [|discriminate].
    destruct (parseCategories c) as [categories|]; [|discriminate].
    destruct (db_Query db _ _ _ _) as [rows|]; [|discriminate].
    unfold Search_rows in H.
    destruct (Search_loop categories (rows_Scan rows) nil_slice zero_POI)
      as [|final] eqn:Hloop; [discriminate|].
    destruct (rows_Err rows); [discriminate|].
    injection H as _ <-.
    eapply Search_loop_nil_or_some; [|exact Hloop]. now left. }
  split; [exact Hshape|].
  destruct Hshape as [->|Hne]; [discriminate|].
  destruct results as [|l]; [discriminate|].
  destruct l; [contradiction | discriminate].
Qed.

(** X5: [wkbPointToWKT] never looks at the first eight bytes: two blobs
    with any two 8-byte headers and the same bytes after them give the
    same result. *)
Theorem wkbPointToWKT_ignores_header (header header' payload : list byte) :
  length header = 8%nat → length header' = 8%nat →
  wkbPointToWKT (header ++ payload) = wkbPointToWKT (header' ++ payload).
Proof.
  intros H H'.
  rewrite !wkbPointToWKT_long by (rewrite length_app; lia).
  now rewrite !drop_app_length' by (symmetry; assumption).
Qed.

Lemma Search_loop_match_all (scans : list (result Row)) (results : slice POI)
    (poi : POI) :
  Search_loop None scans results poi = search_loop scans results poi.
Proof.
  revert results poi.
  induction scans as [|[row|e] scans IH]; intros results poi;
    cbn [Search_loop search_loop]; [reflexivity| |reflexivity].
  destruct (wkbPointToWKT (col_geom row)); [|reflexivity].
  cbv zeta. cbn [len_map Nat.eqb orb]. apply IH.
Qed.

(** X6: with no [categories] parameter, [Search] logs and answers exactly
    as the first version of the handler, [search], on the same database
    and [bbox]. *)
Theorem Search_without_categories_is_search (db : DB) (b : string) :
  Search db b "" = search db b.
Proof.
  unfold Search, search. destruct (parseBBox b) as [bbox|]; [|reflexivity].
  change (parseCategories "") with (Ok (None : option (gset string))).
  cbv iota beta.
  destruct (db_Query db _ _ _ _) as [rows|]; [|reflexivity].
  unfold Search_rows. now rewrite Search_loop_match_all.
Qed.

End Shape.

Section Matching.
Context {lib : GoLib}.

(** X7: [hasCategoryMatch] on a concatenation is the disjunction of the
    two parts, so it does not depend on the order of the tags; it is false
    on the nil map; and a match in a set is a match in every larger set. *)
Theorem hasCategoryMatch_compose :
  (∀ items items' categories,
     hasCategoryMatch (items ++ items') categories
     = hasCategoryMatch items categories || hasCategoryMatch items' categories)
  ∧ (∀ items items' categories,
       items ≡ₚ items' →
       hasCategoryMatch items categories = hasCategoryMatch items' categories)
  ∧ (∀ items, hasCategoryMatch items None = false)
  ∧ (∀ items (smaller larger : gset string),
       smaller ⊆ larger →
       hasCategoryMatch items (Some smaller) = true →
       hasCategoryMatch items (Some larger) = true).
Proof.
  split; [|split; [|split]].
  - intros items items' categories.
    rewrite !hasCategoryMatch_existsb. apply existsb_app.
  - intros items items' categories Hperm.
    rewrite !hasCategoryMatch_existsb.
    induction Hperm as [|x l l' _ IH|x y l|l l' l'' _ IH1 _ IH2]; simpl.
    + reflexivity.
    + now rewrite IH.
    + now destruct (exists_in categories x), (exists_in categories y).
    + now rewrite IH1.
  - intros items. rewrite hasCategoryMatch_existsb.
    induction items; [reflexivity | assumption].
  - intros items smaller larger Hsub H.
    apply hasCategoryMatch_iff in H as (tag & Hin & Hx).
    apply hasCategoryMatch_iff. exists tag. split; [assumption|].
    now apply Hsub.
Qed.

End Matching.

Section Refinement.
Context {lib : GoLib}.

Lemma filter_sublist {A} (f : A → bool) (l : list A) :
  sublist (List.filter f l) l.
Proof.
  induction l as [|x l IH]; simpl; [constructor|].
  destruct (f x); now constructor.
Qed.

(** Two runs of the loop over the same rows, the first with a filter that
    passes no more than the second: they end the same way, and the results
    of the first are those of the second that pass its filter. *)
Lemma Search_loop_refine (narrow wide : category_set)
    (scans : list (result Row)) (r1 r2 : slice POI) (poi : POI) :
  narrow ≠ Some ∅ → wide ≠ Some ∅ →
  (∀ tags, passes narrow tags = true → passes wide tags = true) →
  elems r1 = List.filter (λ p, passes narrow (Categories p)) (elems r2) →
  match Search_loop wide scans r2 poi with
  | Returned logged => Search_loop narrow scans r1 poi = Returned logged
  | Finished f2 =>
      ∃ f1, Search_loop narrow scans r1 poi = Finished f1
            ∧ elems f1 = List.filter (λ p, passes narrow (Categories p)) (elems f2)
  end.
Proof.
  intros Hn Hw Himp. revert r1 r2 poi.
  induction scans as [|[row|e] scans IH]; intros r1 r2 poi Hinv;
    cbn [Search_loop]; [now exists r1| |reflexivity].
  destruct (wkbPointToWKT (col_geom row)) as [w|e]; [|reflexivity].
  cbv zeta. rewrite poi_fields, !Search_test_passes by assumption.
  destruct (passes narrow (Categories (POI_of_row row w))) eqn:E1.
  - rewrite (Himp _ E1). apply IH. unfold append. cbn [elems].
    rewrite List.filter_app, <- Hinv. cbn [List.filter]. now rewrite E1.
  - destruct (passes wide (Categories (POI_of_row row w))); apply IH;
      [|exact Hinv].
    unfold append. cbn [elems].
    rewrite List.filter_app, <- Hinv. cbn [List.filter]. rewrite E1.
    now rewrite app_nil_r.
Qed.

Lemma parseCategories_not_empty_set (c : string) (categories : category_set) :
  parseCategories c = Ok categories → categories ≠ Some ∅.
Proof.
  intros H ->. now apply parseCategories_Some_nonempty in H.
Qed.

Lemma Search_refine (db : DB) (b narrow_str wide_str : string)
    (narrow wide : category_set) :
  parseCategories narrow_str = Ok narrow →
  parseCategories wide_str = Ok wide →
  (∀ tags, passes narrow tags = true → passes wide tags = true) →
  (∀ logged r2,
     Search db b wide_str = (logged, ok_response r2) →
     ∃ r1, Search db b narrow_str = (logged, ok_response r1)
           ∧ elems r1 = List.filter (λ p, passes narrow (Categories p)) (elems r2))
  ∧ (status (snd (Search db b wide_str)) ≠ StatusOK →
     Search db b narrow_str = Search db b wide_str).
Proof.
  intros Hn Hw Himp. unfold Search. rewrite Hn, Hw.
  destruct (parseBBox b) as [bbox|]; [|split; [discriminate | reflexivity]].
  destruct (db_Query db _ _ _ _) as [rows|];
    [|split; [discriminate | reflexivity]].
  unfold Search_rows.
  pose proof (Search_loop_refine narrow wide (rows_Scan rows)
                nil_slice nil_slice zero_POI
                (parseCategories_not_empty_set _ _ Hn)
                (parseCategories_not_empty_set _ _ Hw) Himp eq_refl) as H.
  destruct (Search_loop wide (rows_Scan rows) nil_slice zero_POI) as [l|f2].
  - rewrite H. split; [discriminate | reflexivity].
  - destruct H as (f1 & -> & Hf1).
    destruct (rows_Err rows); [split; [discriminate | reflexivity]|].
    split; [|intros Hs; now contradiction Hs].
    intros logged r2 [= <- <-]. now exists f1.
Qed.

(** X8: a valid [categories] parameter only removes results: when the
    search without it answers 200, the search with it answers 200 with the
    same log, and its results are those of the unfiltered search that pass
    the filter, in the same order; when the search without it fails, the
    search with it fails in the same way. *)
Theorem Search_filter_only_removes (db : DB) (b c : string)
    (categories : category_set) :
  parseCategories c = Ok categories →
  (∀ logged all,
     Search db b "" = (logged, ok_response all) →
     ∃ some,
       Search db b c = (logged, ok_response some)
       ∧ elems some
         = List.filter (λ p, passes categories (Categories p)) (elems all)
       ∧ sublist (elems some) (elems all))
  ∧ (status (snd (Search db b "")) ≠ StatusOK →
     Search db b c = Search db b "").
Proof.
  intros Hc.
  destruct (Search_refine db b c "" categories None Hc eq_refl)
    as [Hok Herr]; [reflexivity|].
  split; [|exact Herr].
  intros logged all H. destruct (Hok logged all H) as (some & Hs & He).
  exists some. split; [exact Hs|]. split; [exact He|].
  rewrite He. apply filter_sublist.
Qed.

(** X9: a filter set that grows only adds results: for two valid
    [categories] parameters whose compiled sets are included one in the
    other, when the search with the larger set answers 200, the search with
    the smaller set answers 200 with the same log and its results are the
    results of the other that pass the smaller filter. *)
Theorem Search_filter_monotone (db : DB) (b c1 c2 : string)
    (smaller larger : gset string) (logged : list string) (r2 : slice POI) :
  parseCategories c1 = Ok (Some smaller) →
  parseCategories c2 = Ok (Some larger) →
  smaller ⊆ larger →
  Search db b c2 = (logged, ok_response r2) →
  ∃ r1,
    Search db b c1 = (logged, ok_response r1)
    ∧ elems r1
      = List.filter (λ p, passes (Some smaller) (Categories p)) (elems r2)
    ∧ sublist (elems r1) (elems r2).
Proof.
  intros H1 H2 Hsub H.
  destruct (Search_refine db b c1 c2 (Some smaller) (Some larger) H1 H2)
    as [Hok _].
  { intros tags Hp. apply passes_iff in Hp as [?|(fs & tag & [= <-] & Hin & Hx)];
      [discriminate|].
    apply passes_iff. right. exists larger, tag.
    split; [reflexivity|]. split; [assumption|]. now apply Hsub. }
  destruct (Hok logged r2 H) as (r1 & Hs & He).
  exists r1. split; [exact Hs|]. split; [exact He|].
  rewrite He. apply filter_sublist.
Qed.

Lemma Search_loop_Finished_inv (categories : category_set)
    (scans : list (result Row)) (results final : slice POI) (poi : POI) :
  Search_loop categories scans results poi = Finished final →
  ∃ rs, scans = map Ok rs
        ∧ Forall (λ row, is_Ok (wkbPointToWKT (col_geom row)) = true) rs.
Proof.
  revert results poi.
  induction scans as [|[row|e] scans IH]; intros results poi H;
    cbn [Search_loop] in H.
  - now exists [].
  - destruct (wkbPointToWKT (col_geom row)) as [w|e] eqn:Hw; [|discriminate].
    apply IH in H as (rs & -> & Hall). exists (row :: rs).
    split; [reflexivity|]. constructor; [now rewrite Hw | assumption].
  - discriminate.
Qed.

(** X10: [Search] answers 200 only when the request validated, the query
    succeeded, every row scanned and decoded and [rows.Err()] was nil; no
    row is skipped: the results are then the POIs of all the rows, each
    built from its own row alone, that pass the filter, and the log holds
    at most the error of [rows.Close()]. *)
Theorem Search_Ok_inv (db : DB) (b c : string) (logged : list string)
    (results : slice POI) :
  Search db b c = (logged, ok_response results) →
  ∃ categories rows rs,
    valid_request db b c categories rows
    ∧ rows_Scan rows = map Ok rs
    ∧ rows_Err rows = None
    ∧ Forall (λ row, is_Ok (wkbPointToWKT (col_geom row)) = true) rs
    ∧ logged = deferred_Close rows
    ∧ elems results
      = List.filter (λ p, passes categories (Categories p)) (omap decoded rs).
Proof.
  intros H. unfold Search in H.
  destruct (parseBBox b) as [bbox|] eqn:Hb; [|discriminate].
  destruct (parseCategories c) as [categories|] eqn:Hc; [|discriminate].
  destruct (db_Query db _ _ _ _) as [rows|] eqn:Hq; [|discriminate].
  unfold Search_rows in H.
  destruct (Search_loop categories (rows_Scan rows) nil_slice zero_POI)
    as [|final] eqn:Hloop; [discriminate|].
  destruct (rows_Err rows) eqn:Herr; [discriminate|].
  injection H as <- <-.
  destruct (Search_loop_Finished_inv _ _ _ _ _ Hloop) as (rs & Hs & Hall).
  exists categories, rows, rs.
  split; [now exists bbox|]. split; [exact Hs|]. split; [exact Herr|].
  split; [exact Hall|]. split; [reflexivity|].
  rewrite Hs, (Search_loop_all_decode _ _ _ _
                 (parseCategories_not_empty_set _ _ Hc) Hall) in Hloop.
  injection Hloop as <-. now rewrite elems_append_all.
Qed.

(** X11: every POI in the results of a search with a non-empty
    [categories] parameter has at least one tag, so its JSON object has
    the member categories, which [omitempty] would drop for a POI without
    tags. *)
Theorem Search_filtered_has_categories (db : DB) (b c : string)
    (logged : list string) (results : slice POI) (poi : POI) :
  c ≠ "" →
  Search db b c = (logged, ok_response results) →
  poi ∈ elems results →
  Categories poi ≠ []
  ∧ ∃ before after,
      json_POI poi
      = JObject (before
                 ++ ("categories", JArray (map JString (Categories poi)))
                 :: after).
Proof.
  intros Hc H Hpoi.
  assert (Categories poi ≠ []) as Hne.
  { unfold Search in H.
    destruct (parseBBox b); [|discriminate].
    destruct (parseCategories c) as [categories|] eqn:Hcat; [|discriminate].
    destruct (db_Query db _ _ _ _) as [rows|]; [|discriminate].
    unfold Search_rows in H.
    destruct (Search_loop categories (rows_Scan rows) nil_slice zero_POI)
      as [|final] eqn:Hloop; [discriminate|].
    destruct (rows_Err rows); [discriminate|].
    injection H as _ <-.
    destruct categories as [filter_set|];
      [|apply parseCategories_None in Hcat; contradiction].
    pose proof (parseCategories_Some_nonempty _ _ Hcat) as Hset.
    eapply (Search_loop_results (λ p, Categories p ≠ [])) in Hloop;
      [| |constructor].
    - rewrite Forall_forall in Hloop. now apply Hloop.
    - intros p Htest. apply orb_true_iff in Htest as [Hlen|Hmatch].
      + simpl in Hlen. apply Nat.eqb_eq, size_empty_iff in Hlen.
        exfalso. apply Hset. now apply leibniz_equiv.
      + intros Hnil. rewrite Hnil in Hmatch. discriminate. }
  split; [exact Hne|].
  unfold json_POI.
  exists ([("fid", JInt (Fid poi)); ("geom", JString (Geom poi));
           ("id", JString (Id poi))]
          ++ omitempty_ptr "primary_name" (PrimaryName poi)).
  eexists. rewrite <- app_assoc. f_equal. f_equal.
  unfold omitempty_strings. destruct (Categories poi); [contradiction|].
  reflexivity.
Qed.

End Refinement.

Section FilterInput.
Context {lib : GoLib}.

Lemma Split_app (a b : string) (sep : ascii) :
  Split (a +:+ String sep b) sep = Split a sep ++ Split b sep.
Proof.
  induction a as [|c r IH].
  - change ("" +:+ String sep b) with (String sep b). cbn [Split].
    now rewrite Ascii.eqb_refl.
  - change (String c r +:+ String sep b) with (String c (r +:+ String sep b)).
    cbn [Split]. destruct (Ascii.eqb c sep); [now rewrite IH|].
    rewrite IH. pose proof (Split_not_nil r sep).
    destruct (Split r sep); [contradiction | reflexivity].
Qed.

Lemma tokens_app (a b : string) :
  tokens (a +:+ String comma b) = tokens a ++ tokens b.
Proof. unfold tokens. now rewrite Split_app, map_app. Qed.

Lemma append_comma_not_empty (a b : string) : a +:+ String comma b ≠ "".
Proof. destruct a; discriminate. Qed.

Lemma lowered_set_app (l l' : list string) :
  lowered_set (l ++ l') = lowered_set l ∪ lowered_set l'.
Proof. unfold lowered_set. now rewrite map_app, list_to_set_app_L. Qed.

(** X12: the compiled filter does not depend on the order of the tokens
    of the [categories] parameter nor on a repetition: two parameters
    joined by a comma compile to the same result in either order, and a
    non-empty parameter joined to itself compiles as it does alone. *)
Theorem parseCategories_order_and_repeats :
  (∀ a b,
     parseCategories (a +:+ String comma b)
     = parseCategories (b +:+ String comma a))
  ∧ (∀ a, a ≠ "" →
       parseCategories (a +:+ String comma a) = parseCategories a).
Proof.
  split.
  - intros a b.
    rewrite !parseCategories_spec by apply append_comma_not_empty.
    rewrite !tokens_app, !existsb_app, !lowered_set_app.
    rewrite (orb_comm (existsb _ (tokens a))).
    now rewrite (comm_L (∪) (lowered_set (tokens a))).
  - intros a Ha.
    rewrite (parseCategories_spec _ (append_comma_not_empty a a)).
    rewrite (parseCategories_spec a Ha).
    rewrite tokens_app, existsb_app, lowered_set_app, orb_diag.
    now rewrite (idemp_L (∪)).
Qed.

Lemma lower_byte_idem (c : ascii) : lower_byte (lower_byte c) = lower_byte c.
Proof. destruct c as [[] [] [] [] [] [] [] []]; reflexivity. Qed.

Lemma lower_byte_space (c : ascii) : asciiSpace (lower_byte c) = asciiSpace c.
Proof. destruct c as [[] [] [] [] [] [] [] []]; reflexivity. Qed.

Lemma lower_byte_below (c : ascii) :
  (byte_of (lower_byte c) <? RuneSelf) = (byte_of c <? RuneSelf).
Proof. destruct c as [[] [] [] [] [] [] [] []]; reflexivity. Qed.

Lemma lower_byte_comma (c : ascii) :
  Ascii.eqb (lower_byte c) comma = Ascii.eqb c comma.
Proof. destruct c as [[] [] [] [] [] [] [] []]; reflexivity. Qed.

Lemma below_not_above (c : ascii) :
  (byte_of c <? RuneSelf) = true → (RuneSelf <=? byte_of c) = false.
Proof. intros H. apply Z.ltb_lt in H. apply Z.leb_gt. exact H. Qed.

Lemma isASCII_map_lower (s : string) :
  isASCII (map_bytes lower_byte s) = isASCII s.
Proof.
  induction s as [|c r IH]; [reflexivity|]. simpl.
  now rewrite lower_byte_below, IH.
Qed.

Lemma map_lower_idem (s : string) :
  map_bytes lower_byte (map_bytes lower_byte s) = map_bytes lower_byte s.
Proof.
  induction s as [|c r IH]; [reflexivity|]. simpl.
  now rewrite lower_byte_idem, IH.
Qed.

Lemma rev_string_map (f : ascii → ascii) (s acc : string) :
  rev_string (map_bytes f s) (map_bytes f acc)
  = map_bytes f (rev_string s acc).
Proof.
  revert acc. induction s as [|c r IH]; intros acc; [reflexivity|].
  simpl. apply (IH (String c acc)).
Qed.

Lemma isASCII_rev_string (s acc : string) :
  isASCII (rev_string s acc) = isASCII s && isASCII acc.
Proof.
  revert acc. induction s as [|c r IH]; intros acc; [reflexivity|].
  simpl. rewrite IH. simpl.
  destruct (byte_of c <? RuneSelf), (isASCII r), (isASCII acc); reflexivity.
Qed.

Lemma TrimSpace_stop_lower (rs : string) :
  isASCII rs = true →
  TrimSpace_stop (map_bytes lower_byte rs)
  = map_bytes lower_byte (TrimSpace_stop rs).
Proof.
  induction rs as [|c r IH]; intros Hrs; [reflexivity|].
  simpl in Hrs. apply andb_true_iff in Hrs as [Hc Hr].
  cbn [map_bytes TrimSpace_stop].
  rewrite (below_not_above c Hc).
  rewrite (below_not_above (lower_byte c)) by now rewrite lower_byte_below.
  rewrite lower_byte_space. destruct (asciiSpace c); [now apply IH|].
  apply (rev_string_map lower_byte (String c r) "").
Qed.

Lemma TrimSpace_lower (s : string) :
  isASCII s = true →
  TrimSpace (map_bytes lower_byte s) = map_bytes lower_byte (TrimSpace s).
Proof.
  induction s as [|c r IH]; intros Hs; [reflexivity|].
  pose proof Hs as Hall.
  simpl in Hs. apply andb_true_iff in Hs as [Hc Hr].
  cbn [map_bytes TrimSpace].
  rewrite (below_not_above c Hc).
  rewrite (below_not_above (lower_byte c)) by now rewrite lower_byte_below.
  rewrite lower_byte_space. destruct (asciiSpace c); [now apply IH|].
  rewrite <- TrimSpace_stop_lower
    by (rewrite isASCII_rev_string, Hall; reflexivity).
  f_equal. apply (rev_string_map lower_byte (String c r) "").
Qed.

Lemma isASCII_TrimSpace_stop (rs : string) :
  isASCII rs = true → isASCII (TrimSpace_stop rs) = true.
Proof.
  induction rs as [|c r IH]; intros Hrs; [reflexivity|].
  pose proof Hrs as Hall.
  simpl in Hrs. apply andb_true_iff in Hrs as [Hc Hr].
  cbn [TrimSpace_stop]. rewrite (below_not_above c Hc).
  destruct (asciiSpace c); [now apply IH|].
  rewrite isASCII_rev_string, Hall. reflexivity.
Qed.

Lemma isASCII_TrimSpace (s : string) :
  isASCII s = true → isASCII (TrimSpace s) = true.
Proof.
  induction s as [|c r IH]; intros Hs; [reflexivity|].
  pose proof Hs as Hall.
  simpl in Hs. apply andb_true_iff in Hs as [Hc Hr].
  cbn [TrimSpace]. rewrite (below_not_above c Hc).
  destruct (asciiSpace c); [now apply IH|].
  apply isASCII_TrimSpace_stop. rewrite isASCII_rev_string, Hall. reflexivity.
Qed.

Lemma Split_map_lower (s : string) :
  Split (map_bytes lower_byte s) comma
  = map (map_bytes lower_byte) (Split s comma).
Proof.
  induction s as [|c r IH]; [reflexivity|].
  cbn [map_bytes Split]. rewrite lower_byte_comma.
  destruct (Ascii.eqb c comma); [now rewrite IH|].
  rewrite IH. now destruct (Split r comma).
Qed.

Lemma isASCII_Split (s : string) (sep : ascii) :
  isASCII s = true → Forall (λ t, isASCII t = true) (Split s sep).
Proof.
  induction s as [|c r IH]; intros Hs; [now repeat constructor|].
  simpl in Hs. apply andb_true_iff in Hs as [Hc Hr].
  specialize (IH Hr). cbn [Split].
  destruct (Ascii.eqb c sep); [now constructor|].
  destruct IH as [|t ts Ht Hts]; [now repeat constructor; simpl; rewrite Hc|].
  constructor; [|assumption]. simpl. now rewrite Hc, Ht.
Qed.

Lemma tokens_map_lower (s : string) :
  isASCII s = true →
  tokens (map_bytes lower_byte s) = map (map_bytes lower_byte) (tokens s)
  ∧ Forall (λ t, isASCII t = true) (tokens s).
Proof.
  intros Hs. unfold tokens. rewrite Split_map_lower.
  pose proof (isASCII_Split s comma Hs) as Hall.
  induction Hall as [|t ts Ht _ [IH1 IH2]]; [now split|].
  simpl. split.
  - now rewrite IH1, TrimSpace_lower.
  - constructor; [now apply isASCII_TrimSpace | assumption].
Qed.

Lemma ToLower_map_lower (t : string) :
  isASCII t = true → ToLower (map_bytes lower_byte t) = ToLower t.
Proof.
  intros Ht. unfold ToLower.
  now rewrite isASCII_map_lower, Ht, map_lower_idem.
Qed.

Lemma map_lower_is_empty (t : string) :
  String.eqb (map_bytes lower_byte t) "" = String.eqb t "".
Proof. now destruct t. Qed.

Lemma existsb_empty_map_lower (l : list string) :
  existsb (λ t, String.eqb t "") (map (map_bytes lower_byte) l)
  = existsb (λ t, String.eqb t "") l.
Proof.
  induction l as [|t ts IH]; [reflexivity|].
  simpl. now rewrite map_lower_is_empty, IH.
Qed.

Lemma parseCategories_map_lower (s : string) :
  isASCII s = true →
  parseCategories (map_bytes lower_byte s) = parseCategories s.
Proof.
  intros Hs. unfold parseCategories. rewrite map_lower_is_empty.
  destruct (String.eqb s ""); [reflexivity|].
  rewrite !parseCategories_loop_spec.
  destruct (tokens_map_lower s Hs) as [Htok Hall]. unfold tokens in *.
  rewrite Htok. clear Htok.
  rewrite existsb_empty_map_lower.
  assert (lowered_set (map (map_bytes lower_byte) (map TrimSpace (Split s comma)))
          = lowered_set (map TrimSpace (Split s comma))) as ->; [|reflexivity].
  unfold lowered_set. f_equal.
  induction Hall as [|t ts Ht _ IH]; [reflexivity|].
  simpl. now rewrite ToLower_map_lower, IH.
Qed.

(** X13: the [categories] parameter is read without regard to the case
    of the letters A to Z: two ASCII strings that differ only by case
    compile to the same filter. *)
Theorem parseCategories_ignores_case (s s' : string) :
  isASCII s = true → isASCII s' = true →
  map_bytes lower_byte s = map_bytes lower_byte s' →
  parseCategories s = parseCategories s'.
Proof.
  intros Hs Hs' Heq.
  rewrite <- (parseCategories_map_lower s Hs).
  rewrite <- (parseCategories_map_lower s' Hs').
  now rewrite Heq.
Qed.

End FilterInput.

Section ReferenceData.
Context {lib : GoLib}.

Lemma int_wrap_small (z : Z) : - 2 ^ 63 <= z < 2 ^ 63 → int_wrap z = z.
Proof.
  intros Hz. unfold int_wrap.
  rewrite Z.mod_small by lia. lia.
Qed.

Lemma incr_lookup (key : string) (categories : gmap string Z) :
  incr key categories !! key
  = Some (int_wrap (default 0 (categories !! key) + 1)).
Proof.
  unfold incr. case_bool_decide as Hk.
  - now rewrite lookup_insert_eq.
  - rewrite lookup_insert_eq. rewrite lookup_insert_eq.
    destruct (categories !! key) eqn:E; [|reflexivity].
    exfalso. apply Hk. now exists z.
Qed.

Lemma incr_lookup_ne (key k : string) (categories : gmap string Z) :
  key ≠ k → incr key categories !! k = categories !! k.
Proof.
  intros Hne. unfold incr. case_bool_decide.
  - now rewrite lookup_insert_ne.
  - now rewrite !lookup_insert_ne.
Qed.

Lemma dom_incr (key : string) (categories : gmap string Z) :
  dom (incr key categories) = {[ key ]} ∪ dom categories.
Proof.
  apply set_eq. intros k. rewrite elem_of_union, elem_of_singleton, !elem_of_dom.
  destruct (decide (key = k)) as [->|Hne].
  - rewrite incr_lookup. split; [now left | intros _; eauto].
  - rewrite (incr_lookup_ne _ _ _ Hne). split; [now right|].
    intros [?|?]; [congruence | assumption].
Qed.

Lemma dom_fold_incr (keys : list string) (categories : gmap string Z) :
  dom (fold_left (λ m k, incr k m) keys categories)
  = list_to_set keys ∪ dom categories.
Proof.
  revert categories. induction keys as [|k keys IH]; intros categories; simpl.
  - now rewrite (left_id_L ∅ (∪)).
  - rewrite IH, dom_incr. set_solver.
Qed.

Lemma occurrences_app (k : string) (l l' : list string) :
  occurrences k (l ++ l') = (occurrences k l + occurrences k l')%nat.
Proof. induction l as [|x l IH]; simpl; [reflexivity | rewrite IH; lia]. Qed.

Lemma occurrences_le_length (k : string) (l : list string) :
  (occurrences k l ≤ length l)%nat.
Proof.
  induction l as [|x l IH]; simpl; [lia|].
  destruct (String.eqb k x); lia.
Qed.

Lemma fold_incr_counts (keys seen : list string) (categories : gmap string Z) :
  (∀ k, categories !! k = counts_of seen k) →
  Z.of_nat (length (seen ++ keys)) < 2 ^ 63 →
  ∀ k, fold_left (λ m k, incr k m) keys categories !! k
       = counts_of (seen ++ keys) k.
Proof.
  revert seen categories.
  induction keys as [|key keys IH]; intros seen categories Hinv Hlen k.
  - simpl. rewrite app_nil_r. apply Hinv.
  - simpl. replace (seen ++ key :: keys) with ((seen ++ [key]) ++ keys)
      by now rewrite <- app_assoc.
    replace (seen ++ key :: keys) with ((seen ++ [key]) ++ keys) in Hlen
      by now rewrite <- app_assoc.
    apply IH; [|exact Hlen].
    intros k'. unfold counts_of. rewrite occurrences_app. simpl.
    destruct (String.eqb_spec k' key) as [->|Hne].
    + rewrite incr_lookup, Hinv. unfold counts_of.
      pose proof (occurrences_le_length key seen) as Hle.
      rewrite !length_app in Hlen. simpl in Hlen.
      destruct (Nat.eqb_spec (occurrences key seen) 0) as [E|E];
        destruct (Nat.eqb_spec (occurrences key seen + (1 + 0)) 0) as [E'|E'];
        try lia; simpl; rewrite int_wrap_small by lia; f_equal; lia.
    + rewrite incr_lookup_ne by congruence. rewrite Hinv. unfold counts_of.
      now replace (occurrences k' seen + (0 + 0))%nat
        with (occurrences k' seen) by lia.
Qed.

Lemma fold_incr_row (mainCategory alternateCategory : NullString)
    (categories : gmap string Z) :
  (if Valid alternateCategory then
     fold_left (λ categories cat, incr (TrimSpace cat) categories)
       (Split (NullString_String alternateCategory) pipe)
       (if Valid mainCategory
        then incr (NullString_String mainCategory) categories
        else categories)
   else
     if Valid mainCategory then incr (NullString_String mainCategory) categories
     else categories)
  = fold_left (λ m k, incr k m)
      (categoryTags mainCategory alternateCategory) categories.
Proof.
  rewrite categoryTags_tagger. unfold tagger, nullable.
  rewrite fold_left_app.
  destruct (Valid mainCategory), (Valid alternateCategory); simpl;
    try reflexivity.
  - generalize (incr (NullString_String mainCategory) categories).
    induction (Split (NullString_String alternateCategory) pipe)
      as [|x l IH]; intros m; simpl; [reflexivity | apply IH].
  - generalize categories.
    induction (Split (NullString_String alternateCategory) pipe)
      as [|x l IH]; intros m; simpl; [reflexivity | apply IH].
Qed.

Lemma precompute_loop_fold (rs : list (NullString * NullString))
    (categories : gmap string Z) (count : Z) :
  0 <= count → count + Z.of_nat (length rs) < 2 ^ 63 →
  precompute_loop (map Ok rs) categories count
  = Ok (fold_left (λ m k, incr k m) (all_tags rs) categories,
        count + Z.of_nat (length rs)).
Proof.
  revert categories count.
  induction rs as [|[m a] rs IH]; intros categories count H0 Hlen.
  - simpl. do 2 f_equal. lia.
  - change (length ((m, a) :: rs)) with (S (length rs)) in *.
    rewrite Nat2Z.inj_succ in *.
    cbn [map precompute_loop]. cbv zeta.
    rewrite (fold_incr_row m a categories).
    rewrite IH by (rewrite ?int_wrap_small; lia).
    rewrite int_wrap_small by lia.
    unfold all_tags. cbn [map concat fst snd]. rewrite fold_left_app.
    do 2 f_equal. lia.
Qed.

(** X14: when the category query and all its rows succeed,
    [precomputeCategories] returns the number of rows and a map that holds,
    for each tag of the rows (the tags [Search] gives them), how often it
    occurs among all the rows, and no other key; fewer than [2^63] rows and
    tags keep the counters from wrapping. *)
Theorem precomputeCategories_counts (db : RefDB) (rows : CategoryRows)
    (rs : list (NullString * NullString)) :
  ref_Query db = Ok rows →
  cat_Scan rows = map Ok rs →
  cat_Err rows = None →
  Z.of_nat (length rs) < 2 ^ 63 →
  Z.of_nat (length (all_tags rs)) < 2 ^ 63 →
  ∃ categories,
    snd (precomputeCategories db) = Ok (categories, Z.of_nat (length rs))
    ∧ (∀ k, categories !! k
            = if (occurrences k (all_tags rs) =? 0)%nat then None
              else Some (Z.of_nat (occurrences k (all_tags rs))))
    ∧ dom categories = list_to_set (all_tags rs).
Proof.
  intros Hq Hs He Hrows Htags.
  exists (fold_left (λ m k, incr k m) (all_tags rs) ∅).
  split; [|split].
  - unfold precomputeCategories. rewrite Hq, Hs.
    rewrite precompute_loop_fold by lia. now rewrite He.
  - intros k. apply (fold_incr_counts (all_tags rs) [] ∅); [|exact Htags].
    intros k'. apply lookup_empty.
  - rewrite dom_fold_incr, dom_empty_L. now rewrite (right_id_L ∅ (∪)).
Qed.

Lemma precompute_loop_first_bad (before : list (NullString * NullString))
    (after : list (result (NullString * NullString))) (e : string)
    (categories : gmap string Z) (count : Z) :
  precompute_loop (map Ok before ++ Err e :: after) categories count
  = Err ("error scanning row: " +:+ e).
Proof.
  revert categories count.
  induction before as [|[m a] before IH]; intros categories count;
    [reflexivity|].
  cbn [map app precompute_loop]. apply IH.
Qed.

(** X15: a row of the category query that does not scan makes
    [precomputeCategories] fail with that row's error, without the
    "Discovered" line, whatever the rows after it are; and [RefData] then
    ends the process with [log.Fatalf], installing no handler. *)
Theorem RefData_unreadable_row (ATTRIBUTION : slice string) (db : RefDB)
    (rows : CategoryRows) (before : list (NullString * NullString))
    (after : list (result (NullString * NullString))) (e : string) :
  ref_Query db = Ok rows →
  cat_Scan rows = map Ok before ++ Err e :: after →
  precomputeCategories db
  = ("Pre-computing POI categories..." :: cat_deferred_Close rows,
     Err ("error scanning row: " +:+ e))
  ∧ snd (RefData ATTRIBUTION db)
    = Fatal ("error pre-computing categories: error scanning row: " +:+ e).
Proof.
  intros Hq Hs.
  assert (precomputeCategories db
          = ("Pre-computing POI categories..." :: cat_deferred_Close rows,
             Err ("error scanning row: " +:+ e))) as Hp.
  { unfold precomputeCategories.
    now rewrite Hq, Hs, precompute_loop_first_bad. }
  split; [exact Hp|]. unfold RefData. now rewrite Hp.
Qed.

(** X16: when [RefData] installs its handler, the handler answers 200
    with the count and the map of [precomputeCategories], the given
    attribution, and a [last_updated] that is never empty (an empty
    timestamp is served as "unknown"); it ends the process exactly when
    [precomputeCategories] or [retrieveLastUpdated] fails. *)
Theorem RefData_handler (ATTRIBUTION : slice string) (db : RefDB) :
  (∀ logged code response,
     RefData ATTRIBUTION db = (logged, Handler code response) →
     code = StatusOK
     ∧ snd (precomputeCategories db)
       = Ok (RefData_Categories response, RefData_Count response)
     ∧ RefData_Attribution response = ATTRIBUTION
     ∧ RefData_LastUpdated response ≠ ""
     ∧ (ref_QueryRow_Scan db = Ok (RefData_LastUpdated response)
        ∨ (ref_QueryRow_Scan db = Ok ""
           ∧ RefData_LastUpdated response = "unknown")))
  ∧ ((∃ message, snd (RefData ATTRIBUTION db) = Fatal message)
     ↔ is_Ok (snd (precomputeCategories db))
       && is_Ok (snd (retrieveLastUpdated db)) = false).
Proof.
  unfold RefData, retrieveLastUpdated.
  destruct (precomputeCategories db) as [logged [[categories count]|e]].
  - destruct (ref_QueryRow_Scan db) as [timestamp|e].
    + destruct (String.eqb_spec timestamp "") as [->|Hne].
      * split.
        -- intros l code response [= _ <- <-]. cbn.
           repeat split; [discriminate | now right].
        -- split; [intros [? ?]; discriminate | discriminate].
      * split.
        -- intros l code response [= _ <- <-]. cbn.
           repeat split; [assumption | now left].
        -- split; [intros [? ?]; discriminate | discriminate].
    + split; [discriminate|]. split; [reflexivity | eauto].
  - split; [discriminate|]. split; [reflexivity | eauto].
Qed.

Lemma map_Ok_inj {A} (l l' : list A) :
  map (@Ok A) l = map (@Ok A) l' → l = l'.
Proof.
  revert l'. induction l as [|x l IH]; intros [|y l'] H; try discriminate;
    [reflexivity|].
  injection H as -> H. f_equal. now apply IH.
Qed.

Lemma elem_of_all_tags (rs : list (NullString * NullString))
    (r : NullString * NullString) (tag : string) :
  r ∈ rs → tag ∈ categoryTags (fst r) (snd r) → tag ∈ all_tags rs.
Proof.
  intros Hr Htag. unfold all_tags. apply list_elem_of_In, in_concat.
  exists (categoryTags (fst r) (snd r)). split; [|now apply list_elem_of_In].
  apply in_map_iff. exists r. split; [reflexivity|now apply list_elem_of_In].
Qed.

(** X17: over one table, every tag of every POI that [Search] returns is
    a key of the map [precomputeCategories] builds: the search never shows
    a category that the reference data does not list. *)
Theorem Search_tags_in_reference_data (poi_uk : list Row)
    (last_change : result string) (b c : string) (logged : list string)
    (results : slice POI) (categories : gmap string Z) (count : Z)
    (poi : POI) (tag : string) :
  Search (poi_uk_db poi_uk) b c = (logged, ok_response results) →
  snd (precomputeCategories (poi_uk_refdb poi_uk last_change))
  = Ok (categories, count) →
  poi ∈ elems results → tag ∈ Categories poi →
  is_Some (categories !! tag).
Proof.
  intros HS Hp Hpoi Htag.
  apply Search_Ok_inv in HS
    as (cats & rows & rs & (bbox & _ & _ & Hq) & Hscan & _ & _ & _ & Hel).
  cbn in Hq. injection Hq as <-. cbn in Hscan.
  apply map_Ok_inj in Hscan. subst rs.
  rewrite Hel in Hpoi.
  apply list_elem_of_In, filter_In in Hpoi as [Hpoi _].
  apply list_elem_of_In, list_elem_of_omap in Hpoi as (row & Hrow & Hdec).
  unfold select in Hrow.
  apply list_elem_of_In, filter_In in Hrow as [Hrow _].
  apply list_elem_of_In in Hrow.
  unfold decoded in Hdec.
  destruct (wkbPointToWKT (col_geom row)) as [w|]; [|discriminate].
  injection Hdec as <-. cbn in Htag.
  unfold precomputeCategories in Hp. cbn in Hp.
  destruct (precompute_loop _ _ _) as [[m n]|] eqn:Hloop; [|discriminate].
  injection Hp as <- <-.
  apply elem_of_dom.
  assert (∀ rs m0 n0 m1 n1,
            precompute_loop (map Ok rs) m0 n0 = Ok (m1, n1) →
            m1 = fold_left (λ m k, incr k m) (all_tags rs) m0) as Hfold.
  { clear. induction rs as [|[ma al] rs IH]; intros m0 n0 m1 n1 H.
    - now injection H as <- _.
    - cbn [map precompute_loop] in H. cbv zeta in H.
      rewrite (fold_incr_row ma al m0) in H.
      apply IH in H. rewrite H. unfold all_tags. cbn [map concat fst snd].
      now rewrite fold_left_app. }
  rewrite (Hfold _ _ _ _ _ Hloop), dom_fold_incr.
  apply elem_of_union_l, elem_of_list_to_set.
  apply (elem_of_all_tags _ (col_main_category row, col_alternate_category row));
    [|exact Htag].
  unfold category_columns. apply list_elem_of_fmap. now exists row.
Qed.

End ReferenceData.

Section Markers.

(** X18: [Marker] serves a file only for a non-empty category that the
    mappings give a non-empty icon, and the file is that icon under
    [./data/markers/]: the category of the URL never becomes part of the
    path.  An empty category is a 400; a category that is missing from the
    mappings, or mapped to the empty string, is a 404. *)
Theorem Marker_serves_mapped_icons (icons : gmap string string)
    (category : string) :
  match Marker icons category with
  | marker_File content_type filepath =>
      category ≠ "" ∧ content_type = "image/png"
      ∧ ∃ icon, icons !! category = Some icon ∧ icon ≠ ""
                ∧ filepath = "./data/markers/" +:+ icon
  | marker_error code msg =>
      (code = 400 ∧ category = "" ∧ msg = "category is required")
      ∨ (code = 404 ∧ category ≠ "" ∧ msg = "category not found"
         ∧ (icons !! category = None ∨ icons !! category = Some ""))
  end.
Proof.
  unfold Marker.
  destruct (String.eqb_spec category "") as [->|Hc]; [now left|].
  destruct (icons !! category) as [icon|] eqn:Hi; cbn.
  - destruct (String.eqb_spec icon "") as [->|Hicon]; cbn.
    + right. repeat split; [assumption | now right].
    + repeat split; [assumption|]. now exists icon.
  - right. repeat split; [assumption | now left].
Qed.

End Markers.

Section Rectangle2.
Context {lib : GoLib}.

Lemma f64_le_trans (x y z : float64) :
  f64_le x y = true → f64_le y z = true → f64_le x z = true.
Proof.
  unfold f64_le. intros Hxy Hyz.
  apply andb_true_iff in Hxy as [Hxy Hk]. apply andb_true_iff in Hxy as [Hx Hy].
  apply andb_true_iff in Hyz as [Hyz Hk']. apply andb_true_iff in Hyz as [_ Hz].
  rewrite Hx, Hz. cbn. apply Z.leb_le in Hk, Hk'. apply Z.leb_le. lia.
Qed.

Lemma BETWEEN_ordered (x lo hi : float64) :
  BETWEEN x lo hi = true → f64_le lo hi = true.
Proof.
  unfold BETWEEN. intros H. apply andb_true_iff in H as [H1 H2].
  now apply (f64_le_trans lo x hi).
Qed.

(** X19: over the table, every POI that [Search] returns is the POI of a
    row of the table whose lat lies between the second and the fourth
    number of [bbox] and whose long lies between the first and the third,
    bounds included. *)
Theorem Search_results_inside_rectangle (poi_uk : list Row) (b c : string)
    (logged : list string) (results : slice POI) (bbox : list float64)
    (poi : POI) :
  Search (poi_uk_db poi_uk) b c = (logged, ok_response results) →
  parseBBox b = Ok bbox →
  poi ∈ elems results →
  BETWEEN (Lat poi) (bbox !!! BOTTOM) (bbox !!! TOP) = true
  ∧ BETWEEN (Long poi) (bbox !!! LEFT) (bbox !!! RIGHT) = true
  ∧ ∃ row, row ∈ poi_uk ∧ decoded row = Some poi.
Proof.
  intros HS Hb Hpoi.
  apply Search_Ok_inv in HS
    as (cats & rows & rs & (bbox' & Hb' & _ & Hq) & Hscan & _ & _ & _ & Hel).
  rewrite Hb in Hb'. injection Hb' as <-.
  cbn in Hq. injection Hq as <-. cbn in Hscan.
  apply map_Ok_inj in Hscan. subst rs.
  rewrite Hel in Hpoi.
  apply list_elem_of_In, filter_In in Hpoi as [Hpoi _].
  apply list_elem_of_In, list_elem_of_omap in Hpoi as (row & Hrow & Hdec).
  unfold select in Hrow.
  apply list_elem_of_In, filter_In in Hrow as [Hrow Hin].
  apply andb_true_iff in Hin as [Hlat Hlong].
  pose proof Hdec as Hdec'. unfold decoded in Hdec'.
  destruct (wkbPointToWKT (col_geom row)) as [w|]; [|discriminate].
  injection Hdec' as <-. cbn.
  split; [exact Hlat|]. split; [exact Hlong|].
  exists row. split; [now apply list_elem_of_In | exact Hdec].
Qed.

(** X20: over the table, a rectangle whose bottom is not below or equal
    to its top, or whose left is not below or equal to its right (an
    inverted rectangle, or a NaN bound), selects no row: [parseBBox]
    accepts it and [Search] answers 200 with no result. *)
Theorem Search_inverted_rectangle (poi_uk : list Row) (b c : string)
    (bbox : list float64) (categories : category_set) :
  parseBBox b = Ok bbox →
  parseCategories c = Ok categories →
  f64_le (bbox !!! BOTTOM) (bbox !!! TOP) = false
  ∨ f64_le (bbox !!! LEFT) (bbox !!! RIGHT) = false →
  Search (poi_uk_db poi_uk) b c = ([], ok_response nil_slice).
Proof.
  intros Hb Hc Hinv. unfold Search. rewrite Hb, Hc. cbn [db_Query poi_uk_db].
  assert (select poi_uk (bbox !!! BOTTOM) (bbox !!! TOP)
            (bbox !!! LEFT) (bbox !!! RIGHT) = []) as ->; [|reflexivity].
  unfold select. induction poi_uk as [|row poi_uk IH]; [reflexivity|].
  cbn [List.filter]. rewrite IH.
  destruct (BETWEEN (col_lat row) _ _) eqn:Hlat;
    destruct (BETWEEN (col_long row) _ _) eqn:Hlong; try reflexivity.
  apply BETWEEN_ordered in Hlat, Hlong.
  destruct Hinv as [H|H]; congruence.
Qed.

End Rectangle2.

(** * The further properties on the small instance *)

Section Instance2.

Lemma parseBBox_Ok_inv_witness :
  count_byte comma example_bbox = 3%nat
  ∧ length [0xBFF0000000000000; 0x4049800000000000;
            0x3FF0000000000000; 0x404A000000000000] = 4%nat
  ∧ Forall2 (λ part v, @ParseFloat stub_lib (@TrimSpace stub_lib part) = Some v)
      (Split example_bbox comma)
      [0xBFF0000000000000; 0x4049800000000000;
       0x3FF0000000000000; 0x404A000000000000].
Proof.
  apply (@parseBBox_Ok_inv stub_lib example_bbox
           [0xBFF0000000000000; 0x4049800000000000;
            0x3FF0000000000000; 0x404A000000000000]).
  reflexivity.
Defined.

Lemma Search_bad_request_witness :
  @Search stub_lib (poi_uk_db example_table) "1,2" ""
  = ([], bad_request "bbox must have 4 comma-separated values")
  ∧ @Search stub_lib (poi_uk_db example_table) example_bbox "a,,b"
    = ([], bad_request "category cannot be an empty string").
Proof.
  split.
  - apply (@Search_bad_request stub_lib "1,2" ""). reflexivity.
  - apply (proj1 (proj2 (@Search_bad_request stub_lib example_bbox "a,,b"))
             (poi_uk_db example_table)
             [0xBFF0000000000000; 0x4049800000000000;
              0x3FF0000000000000; 0x404A000000000000]);
      reflexivity.
Defined.

Lemma Search_results_never_empty_array_witness :
  (mk_slice [@example_POI stub_lib "cafe"] = nil_slice
   ∨ elems (mk_slice [@example_POI stub_lib "cafe"]) ≠ [])
  ∧ json_Response {| Results := mk_slice [@example_POI stub_lib "cafe"] |}
    ≠ JObject [("results", JArray [])].
Proof.
  apply (@Search_results_never_empty_array stub_lib
           (poi_uk_db [example_row "cafe"]) example_bbox "cafe" []).
  vm_compute. reflexivity.
Defined.

Lemma wkbPointToWKT_ignores_header_witness :
  @wkbPointToWKT stub_lib (gpkg_header ++ wkb_point NDR long_m0_12 lat_51_5)
  = @wkbPointToWKT stub_lib
      (replicate 8 (byte_of_Z 0) ++ wkb_point NDR long_m0_12 lat_51_5).
Proof.
  apply (@wkbPointToWKT_ignores_header stub_lib); reflexivity.
Defined.

Lemma hasCategoryMatch_compose_witness :
  hasCategoryMatch ["Cafe"; "zoo"] (Some {[ "zoo" ]})
  = hasCategoryMatch ["zoo"; "Cafe"] (Some {[ "zoo" ]})
  ∧ hasCategoryMatch ["zoo"] (Some {[ "cafe"; "zoo" ]}) = true.
Proof.
  destruct hasCategoryMatch_compose as (_ & Hperm & _ & Hmono).
  split.
  - apply Hperm. apply Permutation_swap.
  - apply (Hmono ["zoo"] {[ "zoo" ]} {[ "cafe"; "zoo" ]}).
    + apply union_subseteq_r.
    + vm_compute. reflexivity.
Defined.

Lemma Search_filter_only_removes_witness :
  ∃ some,
    @Search stub_lib (poi_uk_db example_table) example_bbox "zoo"
    = ([], ok_response some)
    ∧ elems some
      = List.filter (λ p, passes (Some {[ "zoo" ]}) (Categories p))
          (elems (mk_slice [@example_POI stub_lib "cafe";
                            @example_POI stub_lib "Cafe";
                            @example_POI stub_lib "zoo"]))
    ∧ sublist (elems some)
        (elems (mk_slice [@example_POI stub_lib "cafe";
                          @example_POI stub_lib "Cafe";
                          @example_POI stub_lib "zoo"])).
Proof.
  apply (proj1 (@Search_filter_only_removes stub_lib
                  (poi_uk_db example_table) example_bbox "zoo"
                  (Some {[ "zoo" ]}) eq_refl) []).
  vm_compute. reflexivity.
Defined.

Lemma Search_filter_monotone_witness :
  ∃ r1,
    @Search stub_lib (poi_uk_db example_table) example_bbox "zoo"
    = ([], ok_response r1)
    ∧ elems r1
      = List.filter (λ p, passes (Some {[ "zoo" ]}) (Categories p))
          (elems (mk_slice [@example_POI stub_lib "cafe";
                            @example_POI stub_lib "zoo"]))
    ∧ sublist (elems r1)
        (elems (mk_slice [@example_POI stub_lib "cafe";
                          @example_POI stub_lib "zoo"])).
Proof.
  apply (@Search_filter_monotone stub_lib (poi_uk_db example_table)
           example_bbox "zoo" "cafe,zoo" {[ "zoo" ]} {[ "cafe"; "zoo" ]}).
  - vm_compute. reflexivity.
  - vm_compute. reflexivity.
  - apply union_subseteq_r.
  - vm_compute. reflexivity.
Defined.

Lemma Search_Ok_inv_witness :
  ∃ categories rows rs,
    @valid_request stub_lib (poi_uk_db example_table) example_bbox "cafe"
      categories rows
    ∧ rows_Scan rows = map Ok rs
    ∧ rows_Err rows = None
    ∧ Forall (λ row, is_Ok (@wkbPointToWKT stub_lib (col_geom row)) = true) rs
    ∧ [] = deferred_Close rows
    ∧ elems (mk_slice [@example_POI stub_lib "cafe"])
      = List.filter (λ p, passes categories (Categories p))
          (omap (@decoded stub_lib) rs).
Proof.
  apply (@Search_Ok_inv stub_lib (poi_uk_db example_table) example_bbox "cafe").
  vm_compute. reflexivity.
Defined.

Lemma Search_filtered_has_categories_witness :
  Categories (@example_POI stub_lib "cafe") ≠ []
  ∧ ∃ before after,
      json_POI (@example_POI stub_lib "cafe")
      = JObject (before
                 ++ ("categories",
                     JArray (map JString (Categories (@example_POI stub_lib "cafe"))))
                 :: after).
Proof.
  apply (@Search_filtered_has_categories stub_lib
           (poi_uk_db [example_row "cafe"]) example_bbox "cafe" []
           (mk_slice [@example_POI stub_lib "cafe"])).
  - discriminate.
  - vm_compute. reflexivity.
  - apply list_elem_of_here.
Defined.

Lemma parseCategories_order_and_repeats_witness :
  @parseCategories stub_lib ("cafe" +:+ String comma "cafe")
  = @parseCategories stub_lib "cafe".
Proof.
  apply (proj2 (@parseCategories_order_and_repeats stub_lib)). discriminate.
Defined.

Lemma parseCategories_ignores_case_witness :
  @parseCategories stub_lib "Cafe, ZOO" = @parseCategories stub_lib "cafe, zoo".
Proof.
  apply (@parseCategories_ignores_case stub_lib); reflexivity.
Defined.

Lemma precomputeCategories_counts_witness :
  ∃ categories,
    snd (@precomputeCategories stub_lib (poi_uk_refdb example_table (Ok "2025-01-01")))
    = Ok (categories, Z.of_nat (length (category_columns example_table)))
    ∧ (∀ k, categories !! k
            = if (occurrences k
                    (@all_tags stub_lib (category_columns example_table)) =? 0)%nat
              then None
              else Some (Z.of_nat
                           (occurrences k
                              (@all_tags stub_lib (category_columns example_table)))))
    ∧ dom categories
      = list_to_set (@all_tags stub_lib (category_columns example_table)).
Proof.
  apply (@precomputeCategories_counts stub_lib
           (poi_uk_refdb example_table (Ok "2025-01-01"))
           {| cat_Scan := map Ok (category_columns example_table);
              cat_Err := None; cat_Close := None |}).
  - reflexivity.
  - reflexivity.
  - reflexivity.
  - vm_compute. reflexivity.
  - vm_compute. reflexivity.
Defined.

Lemma RefData_unreadable_row_witness :
  @precomputeCategories stub_lib
    {| ref_Query :=
         Ok {| cat_Scan := map Ok [(some_string "cafe", null_string)]
                           ++ Err "converting NULL to string is unsupported"
                           :: [Ok (some_string "zoo", null_string)];
               cat_Err := None; cat_Close := None |};
       ref_QueryRow_Scan := Ok "2025-01-01" |}
  = (["Pre-computing POI categories..."],
     Err "error scanning row: converting NULL to string is unsupported")
  ∧ snd (@RefData stub_lib nil_slice
           {| ref_Query :=
                Ok {| cat_Scan := map Ok [(some_string "cafe", null_string)]
                                  ++ Err "converting NULL to string is unsupported"
                                  :: [Ok (some_string "zoo", null_string)];
                      cat_Err := None; cat_Close := None |};
              ref_QueryRow_Scan := Ok "2025-01-01" |})
    = Fatal "error pre-computing categories: error scanning row: converting NULL to string is unsupported".
Proof.
  apply (@RefData_unreadable_row stub_lib nil_slice _
           {| cat_Scan := map Ok [(some_string "cafe", null_string)]
                          ++ Err "converting NULL to string is unsupported"
                          :: [Ok (some_string "zoo", null_string)];
              cat_Err := None; cat_Close := None |}
           [(some_string "cafe", null_string)]
           [Ok (some_string "zoo", null_string)]
           "converting NULL to string is unsupported"); reflexivity.
Defined.

Lemma RefData_handler_witness :
  200 = StatusOK
  ∧ snd (@precomputeCategories stub_lib (poi_uk_refdb example_table (Ok "")))
    = Ok (list_to_map [("cafe", 1); ("Cafe", 1); ("zoo", 1); ("Bakery", 3)], 3)
  ∧ (nil_slice : slice string) = nil_slice
  ∧ "unknown" ≠ ""
  ∧ (ref_QueryRow_Scan (poi_uk_refdb example_table (Ok "")) = Ok "unknown"
     ∨ (ref_QueryRow_Scan (poi_uk_refdb example_table (Ok "")) = Ok ""
        ∧ "unknown" = "unknown")).
Proof.
  refine (proj1 (@RefData_handler stub_lib nil_slice
                   (poi_uk_refdb example_table (Ok "")))
            ["Pre-computing POI categories...";
             "Discovered 4 distinct categories from 3 points of interest"]
            200
            {| RefData_Count := 3;
               RefData_LastUpdated := "unknown";
               RefData_Categories :=
                 list_to_map [("cafe", 1); ("Cafe", 1); ("zoo", 1); ("Bakery", 3)];
               RefData_Attribution := nil_slice |} _).
  vm_compute. reflexivity.
Defined.

Lemma Search_tags_in_reference_data_witness :
  is_Some ((list_to_map [("cafe", 1); ("Cafe", 1); ("zoo", 1); ("Bakery", 3)]
            : gmap string Z) !! "Bakery").
Proof.
  apply (@Search_tags_in_reference_data stub_lib example_table (Ok "")
           example_bbox "cafe" [] (mk_slice [@example_POI stub_lib "cafe"])
           _ 3 (@example_POI stub_lib "cafe") "Bakery").
  - vm_compute. reflexivity.
  - vm_compute. reflexivity.
  - apply list_elem_of_here.
  - apply list_elem_of_further, list_elem_of_here.
Defined.

Lemma Search_results_inside_rectangle_witness :
  BETWEEN (Lat (@example_POI stub_lib "cafe"))
    ([0xBFF0000000000000; 0x4049800000000000;
      0x3FF0000000000000; 0x404A000000000000] !!! BOTTOM)
    ([0xBFF0000000000000; 0x4049800000000000;
      0x3FF0000000000000; 0x404A000000000000] !!! TOP) = true
  ∧ BETWEEN (Long (@example_POI stub_lib "cafe"))
      ([0xBFF0000000000000; 0x4049800000000000;
        0x3FF0000000000000; 0x404A000000000000] !!! LEFT)
      ([0xBFF0000000000000; 0x4049800000000000;
        0x3FF0000000000000; 0x404A000000000000] !!! RIGHT) = true
  ∧ ∃ row, row ∈ example_table
           ∧ @decoded stub_lib row = Some (@example_POI stub_lib "cafe").
Proof.
  apply (@Search_results_inside_rectangle stub_lib example_table
           example_bbox "cafe" [] (mk_slice [@example_POI stub_lib "cafe"])).
  - vm_compute. reflexivity.
  - reflexivity.
  - apply list_elem_of_here.
Defined.

Lemma Search_inverted_rectangle_witness :
  @Search stub_lib (poi_uk_db example_table) "1,51,-1,52" "cafe"
  = ([], ok_response nil_slice).
Proof.
  apply (@Search_inverted_rectangle stub_lib example_table "1,51,-1,52" "cafe"
           [0x3FF0000000000000; 0x4049800000000000;
            0xBFF0000000000000; 0x404A000000000000]
           (Some {[ "cafe" ]})).
  - reflexivity.
  - vm_compute. reflexivity.
  - right. reflexivity.
Defined.

End Instance2.

(** * Literal matching *)

Section LiteralMatch.
Context {lib : GoLib}.

Lemma parseCategories_Some_members (s : string) (filter_set : gset string) :
  parseCategories s = Ok (Some filter_set) →
  ∀ x, x ∈ filter_set → ∃ t, t ∈ tokens s ∧ x = ToLower t.
Proof.
  intros H x Hx. destruct (decide (s = "")) as [->|Hs]; [discriminate|].
  rewrite (parseCategories_spec s Hs) in H.
  destruct (existsb _ _); [discriminate|].
  injection H as <-. unfold lowered_set in Hx.
  apply elem_of_list_to_set, list_elem_of_fmap in Hx as (t & -> & Ht).
  now exists t.
Qed.

(** A POI in the results of a search with a compiled filter set has one
    of its tags, as stored, in the set. *)
Lemma Search_result_matches (db : DB) (b c : string) (logged : list string)
    (results : slice POI) (filter_set : gset string) (poi : POI) :
  Search db b c
  = (logged, {| status := 200;
                body := body_Response {| Results := results |} |}) →
  parseCategories c = Ok (Some filter_set) →
  poi ∈ elems results →
  ∃ tag, tag ∈ Categories poi ∧ tag ∈ filter_set.
Proof.
  intros H Hc Hpoi. unfold Search in H. rewrite Hc in H.
  destruct (parseBBox b) as [bbox|]; [|discriminate].
  destruct (db_Query db _ _ _ _) as [rows|]; [|discriminate].
  unfold Search_rows in H.
  destruct (Search_loop (Some filter_set) (rows_Scan rows) nil_slice zero_POI)
    as [|final] eqn:Hloop; [discriminate|].
  destruct (rows_Err rows); [discriminate|].
  injection H as _ <-.
  pose proof (parseCategories_Some_nonempty _ _ Hc) as Hne.
  eapply (Search_loop_results
            (λ p, ∃ tag, tag ∈ Categories p ∧ tag ∈ filter_set))
    in Hloop; [| |constructor].
  - rewrite Forall_forall in Hloop. now apply Hloop.
  - intros p Htest. apply orb_true_iff in Htest as [Hlen|Hmatch].
    + simpl in Hlen. apply Nat.eqb_eq, size_empty_iff in Hlen.
      exfalso. apply Hne. now apply leibniz_equiv.
    + now apply hasCategoryMatch_iff in Hmatch.
Qed.

Lemma Search_filter_is_set (db : DB) (b c : string) (logged : list string)
    (results : slice POI) :
  c ≠ "" →
  Search db b c
  = (logged, {| status := 200;
                body := body_Response {| Results := results |} |}) →
  ∃ filter_set, parseCategories c = Ok (Some filter_set).
Proof.
  intros Hs H. unfold Search in H.
  destruct (parseBBox b) as [bbox|]; [|discriminate].
  destruct (parseCategories c) as [[filter_set|]|] eqn:Hc; [| |discriminate].
  - now exists filter_set.
  - apply parseCategories_None in Hc. contradiction.
Qed.

(** C10, as the code has it: [hasCategoryMatch] on a compiled filter set
    is true exactly when one of the tags, as stored, is a member of the
    set; and, as the set holds lower-cased tokens, every POI in the
    results of a search with a non-empty [categories] parameter has a tag
    without any of the letters A to Z: a POI whose tags all contain one is
    never included.  For an ASCII parameter this needs nothing of the
    library; for any parameter it holds of every class of letters that
    [strings.ToLower] leaves none of, which the letters A to Z are when
    the library's Unicode mapping never yields one.  It does not hold of
    an upper-case letter that lower-casing leaves unchanged. *)
Theorem C10_literal_match :
  (∀ items filter_set,
     hasCategoryMatch items (Some filter_set) = true
     ↔ ∃ tag, tag ∈ items ∧ tag ∈ filter_set)
  ∧ (∀ contains_upper : string → bool,
       (∀ s, contains_upper (ToLower s) = false) →
       ∀ db bboxStr categoriesStr logged results poi,
         categoriesStr ≠ "" →
         Search db bboxStr categoriesStr = (logged, ok_response results) →
         poi ∈ elems results →
         Exists (λ tag, contains_upper tag = false) (Categories poi))
  ∧ (lowers_ascii → ∀ s, has_upper (ToLower s) = false)
  ∧ (∀ db bboxStr categoriesStr logged results poi,
       categoriesStr ≠ "" →
       isASCII categoriesStr = true →
       Search db bboxStr categoriesStr
       = (logged, {| status := 200;
                     body := body_Response {| Results := results |} |}) →
       poi ∈ elems results →
       Exists (λ tag, has_upper tag = false) (Categories poi)).
Proof.
  split; [exact hasCategoryMatch_iff|].
  split; [|split; [intros Hlib s; now apply ToLower_no_upper|]].
  - intros contains_upper Hlower db bboxStr categoriesStr logged results poi
      Hs H Hpoi.
    destruct (Search_filter_is_set _ _ _ _ _ Hs H) as [filter_set Hc].
    destruct (Search_result_matches _ _ _ _ _ _ _ H Hc Hpoi)
      as (tag & Hin & Hx).
    apply Exists_exists. exists tag. split; [assumption|].
    destruct (parseCategories_Some_members _ _ Hc tag Hx) as (t & _ & ->).
    apply Hlower.
  - intros db bboxStr categoriesStr logged results poi Hs Hascii H Hpoi.
    destruct (Search_filter_is_set _ _ _ _ _ Hs H) as [filter_set Hc].
    destruct (Search_result_matches _ _ _ _ _ _ _ H Hc Hpoi)
      as (tag & Hin & Hx).
    apply Exists_exists. exists tag. split; [assumption|].
    destruct (parseCategories_Some_members _ _ Hc tag Hx) as (t & Ht & ->).
    destruct (tokens_map_lower categoriesStr Hascii) as [_ Hall].
    rewrite Forall_forall in Hall. specialize (Hall t Ht).
    unfold ToLower. rewrite Hall. apply map_lower_no_upper.
Qed.

End LiteralMatch.

Section LiteralInstance.

(** The claim of C10 fails on the code as worded: U+2102 is an upper-case
    letter that lower-casing leaves unchanged, so a row whose tags are
    U+2102 and Bakery, each with an upper-case letter, is returned by the
    search with categories set to U+2102. *)
Lemma C10_counterexample :
  @ToLower stub_lib double_struck_C = double_struck_C
  ∧ @parseCategories stub_lib double_struck_C
    = Ok (Some {[ double_struck_C ]})
  ∧ Categories (@example_POI stub_lib double_struck_C)
    = [double_struck_C; "Bakery"]
  ∧ has_upper "Bakery" = true
  ∧ @Search stub_lib (poi_uk_db [example_row double_struck_C]) example_bbox
      double_struck_C
    = ([], {| status := 200;
              body := body_Response
                {| Results :=
                     mk_slice [@example_POI stub_lib double_struck_C] |} |}).
Proof. repeat split; vm_compute; reflexivity. Qed.

Lemma C10_witness :
  Exists (λ tag, has_upper tag = false) (Categories (@example_POI stub_lib "cafe")).
Proof.
  destruct (@C10_literal_match stub_lib) as (_ & Hresults & Hascii & _).
  apply (Hresults has_upper (Hascii stub_lowers_ascii)
           (poi_uk_db [example_row "cafe"]) example_bbox "cafe" []
           (mk_slice [@example_POI stub_lib "cafe"])).
  - discriminate.
  - vm_compute. reflexivity.
  - apply list_elem_of_here.
Defined.

End LiteralInstance.
